(** * crypto-price: the Binance market-data service

    A shallow embedding of [src/app/services/binance.service.ts]
    (class [BinanceService]) and of the facts about it that the design
    document states, followed by its caller, the price tracker component,
    and by what the code of both shows beyond that document.

    Conventions of the embedding.
    - A JavaScript [Set<string>] is a duplicate-free list in insertion
      order (the order [Array.from] and [forEach] observe); its
      mathematical content is read off with [list_to_set] into a [gset].
    - [String.prototype.toLowerCase] / [toUpperCase] are built-ins of the
      host language; the service is verified for every such pair of
      functions (class [JsString]) and run on the ASCII instance.
    - [number] values that the service only stores, compares with zero or
      forwards are integers in [Z]; the service does no arithmetic on
      them apart from [Math.min(retryCount, 5) * 1000].
    - [Date.now()] is an argument [now] of the operation that reads it,
      one reading per message.
    - Handing a message to [WebSocketSubject.next] appends it to the
      history field [wire]; console output is not recorded. *)

From Stdlib Require Import Ascii String ZArith.
From Stdlib Require Import Floats.SpecFloat.
From stdpp Require Import base list strings gmap sets.

Local Open Scope string_scope.
Local Open Scope list_scope.

(** ** Values of the host language *)

#[warnings="-register-all"]
Inductive JsValue : Type :=
  | JUndefined
  | JNull
  | JBool (b : bool)
  | JNum (n : Z)
  | JStr (s : string)
  | JArr (items : list JsValue)
  | JObj (fields : list (string * JsValue)).

(** [v ? ... : ...], [if (v)], [v && ...]: the truthiness of a value. *)
Definition truthy (v : JsValue) : bool :=
  match v with
  | JUndefined | JNull => false
  | JBool b => b
  | JNum n => negb (n =? 0)%Z
  | JStr s => negb (String.eqb s "")
  | JArr _ | JObj _ => true
  end.

(** Own-property lookup in a parsed object. *)
Fixpoint lookupField (k : string) (fields : list (string * JsValue)) : option JsValue :=
  match fields with
  | [] => None
  | (k', v) :: rest => if String.eqb k k' then Some v else lookupField k rest
  end.

(** [v.k] for a key [k] that no prototype defines: [None] is the
    [TypeError] raised on [null] and [undefined]. *)
Definition member (v : JsValue) (k : string) : option JsValue :=
  match v with
  | JUndefined | JNull => None
  | JObj fields => Some (default JUndefined (lookupField k fields))
  | _ => Some JUndefined
  end.

(** [a[i]] on an array: [undefined] past the end. *)
Definition index (a : list JsValue) (i : nat) : JsValue := nth i a JUndefined.

(** [v === 'text'] *)
Definition strictEqStr (v : JsValue) (text : string) : bool :=
  match v with
  | JStr s => String.eqb s text
  | _ => false
  end.

(** [v !== undefined] *)
Definition notUndefined (v : JsValue) : bool :=
  match v with
  | JUndefined => false
  | _ => true
  end.

(** Case mapping of strings, a built-in of the host language. *)
Class JsString := {
  toLowerCase : string → string;
  toUpperCase : string → string
}.

(** The ASCII instance, used to run the model on ticker symbols. *)
Definition asciiLower (c : ascii) : ascii :=
  let n := nat_of_ascii c in
  if (65 <=? n)%nat && (n <=? 90)%nat then ascii_of_nat (n + 32) else c.

Definition asciiUpper (c : ascii) : ascii :=
  let n := nat_of_ascii c in
  if (97 <=? n)%nat && (n <=? 122)%nat then ascii_of_nat (n - 32) else c.

Fixpoint mapString (f : ascii → ascii) (s : string) : string :=
  match s with
  | EmptyString => EmptyString
  | String c rest => String (f c) (mapString f rest)
  end.

Definition asciiStrings : JsString :=
  {| toLowerCase := mapString asciiLower; toUpperCase := mapString asciiUpper |}.

(** ** [Set<string>] *)

Module JsSet.

Definition t := list string.

Definition empty : t := [].

Definition has (s : t) (x : string) : bool := bool_decide (x ∈ s).

(** [s.add(x)]: a new element goes last, a present one keeps its place. *)
Definition add (x : string) (s : t) : t := if has s x then s else s ++ [x].

(** [s.delete(x)] *)
Definition delete (x : string) (s : t) : t := filter (λ y, y ≠ x) s.

(** [new Set(array)] *)
Definition ofArray (a : list string) : t := foldl (λ s x, add x s) empty a.

(** [Array.from(s)] *)
Definition toArray (s : t) : list string := s.

Definition size (s : t) : nat := length s.

(** The set of strings a [Set] object holds. *)
Definition content (s : t) : gset string := list_to_set s.

End JsSet.

(** ** The streaming side of the service *)

Inductive Method := SUBSCRIBE | UNSUBSCRIBE.

(** The control message [{method, params, id}]. *)
Record WsMessage := {
  method : Method;
  params : list string;
  id : Z
}.

(** A [WebSocketSubject]: the service reads its [closed] flag only. *)
Record WebSocketSubject := { closed : bool }.

Record ExchangeSymbol := {
  symbol : string;
  status : string;
  baseAsset : string;
  baseAssetPrecision : Z;
  quoteAsset : string;
  quotePrecision : Z;
  quoteAssetPrecision : Z;
  baseCommissionPrecision : Z;
  quoteCommissionPrecision : Z;
  orderTypes : list string;
  icebergAllowed : bool;
  ocoAllowed : bool;
  quoteOrderQtyMarketAllowed : bool;
  isSpotTradingAllowed : bool;
  isMarginTradingAllowed : bool;
  filters : list JsValue;
  permissions : list string;
  defaultSelfTradePreventionMode : string;
  allowedSelfTradePreventionModes : list string
}.

Record ExchangeInfo := {
  timezone : string;
  serverTime : Z;
  rateLimits : list JsValue;
  exchangeFilters : list JsValue;
  symbols : list ExchangeSymbol
}.

(** The fields of [BinanceService]. [_tradeDataStream] is the [Subject]
    behind [tradeData$]: one inbox per registered observer, in
    registration order, each holding what that observer received so far.
    [_exchangeInfoSubject] is the current value of the [BehaviorSubject]
    behind [exchangeInfo$]. *)
Record BinanceService := {
  _websocketSubject : option WebSocketSubject;
  _tradeDataStream : list (list JsValue);
  _exchangeInfoSubject : list ExchangeSymbol;
  _subscribedSymbols : JsSet.t;
  wire : list WsMessage
}.

Definition initialService : BinanceService :=
  {| _websocketSubject := None;
     _tradeDataStream := [];
     _exchangeInfoSubject := [];
     _subscribedSymbols := JsSet.empty;
     wire := [] |}.

Definition setSocket (w : option WebSocketSubject) (st : BinanceService) : BinanceService :=
  {| _websocketSubject := w;
     _tradeDataStream := _tradeDataStream st;
     _exchangeInfoSubject := _exchangeInfoSubject st;
     _subscribedSymbols := _subscribedSymbols st;
     wire := wire st |}.

Definition setTradeDataStream (inboxes : list (list JsValue)) (st : BinanceService) : BinanceService :=
  {| _websocketSubject := _websocketSubject st;
     _tradeDataStream := inboxes;
     _exchangeInfoSubject := _exchangeInfoSubject st;
     _subscribedSymbols := _subscribedSymbols st;
     wire := wire st |}.

Definition setExchangeInfo (l : list ExchangeSymbol) (st : BinanceService) : BinanceService :=
  {| _websocketSubject := _websocketSubject st;
     _tradeDataStream := _tradeDataStream st;
     _exchangeInfoSubject := l;
     _subscribedSymbols := _subscribedSymbols st;
     wire := wire st |}.

Definition setSubscribedSymbols (s : JsSet.t) (st : BinanceService) : BinanceService :=
  {| _websocketSubject := _websocketSubject st;
     _tradeDataStream := _tradeDataStream st;
     _exchangeInfoSubject := _exchangeInfoSubject st;
     _subscribedSymbols := s;
     wire := wire st |}.

Definition pushWire (m : WsMessage) (st : BinanceService) : BinanceService :=
  {| _websocketSubject := _websocketSubject st;
     _tradeDataStream := _tradeDataStream st;
     _exchangeInfoSubject := _exchangeInfoSubject st;
     _subscribedSymbols := _subscribedSymbols st;
     wire := wire st ++ [m] |}.

(** [this._websocketSubject && !this._websocketSubject.closed] *)
Definition socketUsable (st : BinanceService) : bool :=
  match _websocketSubject st with
  | Some w => negb (closed w)
  | None => false
  end.

(** [Subject.next(v)]: every registered observer receives [v]. *)
Definition subjectNext (v : JsValue) (inboxes : list (list JsValue)) : list (list JsValue) :=
  (λ inbox, inbox ++ [v]) <$> inboxes.

(** [tradeData$.subscribe(...)]: a new observer, with nothing received. *)
Definition registerListener (st : BinanceService) : BinanceService :=
  setTradeDataStream (_tradeDataStream st ++ [[]]) st.

(** The retry configuration of the websocket pipeline,
    [retry({ delay: (error, retryCount) => timer(Math.min(retryCount, 5) * 1000) })],
    and of the REST pipelines, [retry(3)]: a bound on the number of
    resubscriptions ([None]: unbounded) and a delay in milliseconds before
    each one ([None]: resubscribe at once). *)
Record RetryConfig := {
  count : option nat;
  delay : option (Z → Z)
}.

Definition wsRetryDelay (retryCount : Z) : Z := (Z.min retryCount 5 * 1000)%Z.

Definition wsRetry : RetryConfig := {| count := None; delay := Some wsRetryDelay |}.

Definition restRetry : RetryConfig := {| count := Some 3; delay := None |}.

(** Milliseconds the [retry] operator waits before resubscription number
    [retryCount]. *)
Definition retryDelay (cfg : RetryConfig) (retryCount : Z) : Z :=
  match delay cfg with
  | Some f => f retryCount
  | None => 0%Z
  end.

(** The close handler reconnects after [timer(3000)]. *)
Definition reconnectDelay : Z := 3000%Z.

Section Streaming.

Context `{JsString}.

Definition streamName (s : string) : string := toLowerCase s +:+ "@trade".

Definition _sendSubscriptionMessage (now : Z) (m : Method) (syms : list string)
    (st : BinanceService) : BinanceService :=
  if negb (socketUsable st) then st
  else pushWire {| method := m; params := streamName <$> syms; id := now |} st.

(** The two filters at the head of [subscribeToTradeStream]; the function
    itself takes the two clock readings [now.1] and [now.2] that its
    UNSUBSCRIBE and its SUBSCRIBE message would carry. *)
Definition newSymbols (syms : list string) : JsSet.t :=
  JsSet.ofArray (toLowerCase <$> syms).

Definition symbolsToSubscribe (active : JsSet.t) (syms : list string) : list string :=
  filter (λ s, JsSet.has active s = false) (JsSet.toArray (newSymbols syms)).

Definition symbolsToUnsubscribe (active : JsSet.t) (syms : list string) : list string :=
  filter (λ s, JsSet.has (newSymbols syms) s = false) (JsSet.toArray active).

Definition subscribeToTradeStream (now : Z * Z) (syms : list string)
    (st : BinanceService) : BinanceService :=
  let toSub := symbolsToSubscribe (_subscribedSymbols st) syms in
  let toUnsub := symbolsToUnsubscribe (_subscribedSymbols st) syms in
  let st1 :=
    if (0 <? length toUnsub)%nat then
      let st' := _sendSubscriptionMessage now.1 UNSUBSCRIBE toUnsub st in
      setSubscribedSymbols
        (foldl (λ set s, JsSet.delete s set) (_subscribedSymbols st') toUnsub) st'
    else st in
  if (0 <? length toSub)%nat then
    let st' := _sendSubscriptionMessage now.2 SUBSCRIBE toSub st1 in
    setSubscribedSymbols
      (foldl (λ set s, JsSet.add s set) (_subscribedSymbols st') toSub) st'
  else st1.

(** The identifiers a call asks for, in canonical form. *)
Definition normalized (syms : list string) : gset string :=
  list_to_set (toLowerCase <$> syms).

(** The messages one call of [subscribeToTradeStream] hands to a usable
    socket: the removals first, then the additions, empty ones left out. *)
Definition commands (now : Z * Z) (active : JsSet.t) (syms : list string) : list WsMessage :=
  let message t m l :=
    match l with
    | [] => []
    | _ => [{| method := m; params := streamName <$> l; id := t |}]
    end in
  message now.1 UNSUBSCRIBE (symbolsToUnsubscribe active syms) ++
  message now.2 SUBSCRIBE (symbolsToSubscribe active syms).

(** [_connect]: nothing when a live subject exists, a fresh subject
    otherwise. *)
Definition _connect (st : BinanceService) : BinanceService :=
  if socketUsable st then st
  else setSocket (Some {| closed := false |}) st.

(** [openObserver.next] *)
Definition onOpen (now : Z) (st : BinanceService) : BinanceService :=
  if (0 <? JsSet.size (_subscribedSymbols st))%nat then
    _sendSubscriptionMessage now SUBSCRIBE (JsSet.toArray (_subscribedSymbols st)) st
  else st.

(** [closeObserver.next]; the reconnection it schedules is
    [onReconnectTimer], [reconnectDelay] milliseconds later. *)
Definition onClose (st : BinanceService) : BinanceService := setSocket None st.

Definition onReconnectTimer (st : BinanceService) : BinanceService := _connect st.

End Streaming.

(** The [next] handler of the websocket subscription. [None] stands for
    an exception escaping the handler. *)
Definition onMessage (message : JsValue) (st : BinanceService) : option BinanceService :=
  if truthy message then
    e ← member message "e";
    if strictEqStr e "trade" then
      Some (setTradeDataStream (subjectNext message (_tradeDataStream st)) st)
    else
      r ← member message "result";
      if notUndefined r then Some st else Some st
  else Some st.

(** ** The request/response side of the service *)

(** [HttpErrorResponse]: the status code of the failed exchange, [0] when
    no response reached the client. *)
Record HttpErrorResponse := { httpStatus : Z }.

Inductive HttpResponse (B : Type) : Type :=
  | HttpOk (body : B)
  | HttpFail (error : HttpErrorResponse).

Arguments HttpOk {B} body.
Arguments HttpFail {B} error.

(** An optional [number] argument as the value the function body sees. *)
Definition optNumber (o : option Z) : JsValue :=
  match o with
  | Some n => JNum n
  | None => JUndefined
  end.

(** The query parameters of the candle request; an absent key is [None]. *)
Module Params.
Record t := {
  symbol : string;
  interval : string;
  limit : Z;
  startTime : option Z;
  endTime : option Z
}.
End Params.

(** One candle as [getKlines] builds it. The fields hold whatever value
    the tuple holds at that position: types are not checked at run time. *)
Module KLineData.
Record t := {
  openTime : JsValue;
  open : JsValue;
  high : JsValue;
  low : JsValue;
  close : JsValue;
  volume : JsValue;
  closeTime : JsValue;
  quoteAssetVolume : JsValue;
  numberOfTrades : JsValue;
  takerBuyBaseAssetVolume : JsValue;
  takerBuyQuoteAssetVolume : JsValue;
  ignore : JsValue
}.
End KLineData.

(** The arrow function under [data.map] in [getKlines]. *)
Definition decodeKline (item : list JsValue) : KLineData.t :=
  {| KLineData.openTime := index item 0;
     KLineData.open := index item 1;
     KLineData.high := index item 2;
     KLineData.low := index item 3;
     KLineData.close := index item 4;
     KLineData.volume := index item 5;
     KLineData.closeTime := index item 6;
     KLineData.quoteAssetVolume := index item 7;
     KLineData.numberOfTrades := index item 8;
     KLineData.takerBuyBaseAssetVolume := index item 9;
     KLineData.takerBuyQuoteAssetVolume := index item 10;
     KLineData.ignore := index item 11 |}.

Definition decodeKlines (data : list (list JsValue)) : list KLineData.t :=
  decodeKline <$> data.

(** The [map] stage of [getExchangeInfo]. *)
Definition tradableSymbols (info : ExchangeInfo) : list ExchangeSymbol :=
  filter (λ s, status s = "TRADING") (symbols info).

(** The head of [getKlines]: the [params] object. [limit] is [None] when
    the caller leaves it out. *)
Definition klinesParams `{JsString} (sym itv : string) (lim startT endT : option Z) : Params.t :=
  let lim := default 500%Z lim in
  let params :=
    {| Params.symbol := toUpperCase sym;
       Params.interval := itv;
       Params.limit := lim;
       Params.startTime := None;
       Params.endTime := None |} in
  let params :=
    if truthy (optNumber startT) then
      {| Params.symbol := Params.symbol params;
         Params.interval := Params.interval params;
         Params.limit := Params.limit params;
         Params.startTime := startT;
         Params.endTime := Params.endTime params |}
    else params in
  if truthy (optNumber endT) then
    {| Params.symbol := Params.symbol params;
       Params.interval := Params.interval params;
       Params.limit := Params.limit params;
       Params.startTime := Params.startTime params;
       Params.endTime := endT |}
  else params.

(** [if (soFar++ < count)] of the [retry] operator: may the failed source
    be subscribed again? *)
Definition retryAllows (cfg : RetryConfig) (soFar : nat) : bool :=
  match count cfg with
  | Some n => (soFar <? n)%nat
  | None => true
  end.

(** *** Pipelines [http.get(...).pipe(retry(3), catchError(rethrow), map(f), shareReplay(1))]

    Every call of [getKlines] or [getExchangeInfo] builds one such
    pipeline and returns it. [http.get] is cold: each subscription to it
    sends one request. [catchError] re-throws the error it receives, so
    it passes every notification through unchanged. [shareReplay(1)]
    subscribes to its source for its first observer, lets later observers
    join, replays the value to observers that arrive after it, and forgets
    the source when the source fails.

    The state is driven by events: an observer subscribes to a pipeline,
    or the response to the pipeline's pending request arrives. *)
Section Pipelines.

Context {P B R : Type}.

Record Call := {
  request : P;                 (* what [http.get] sends on subscription *)
  soFar : nat;                 (* resubscriptions done by [retry] *)
  connected : bool;            (* [shareReplay] holds a source subscription *)
  replay : option R;           (* the value [shareReplay] buffers *)
  waiting : list nat           (* observers that await the outcome *)
}.

Record Http := {
  requests : list P;                              (* every request sent, oldest first *)
  calls : list Call;                              (* the pipelines built, by handle *)
  observed : list (option (HttpErrorResponse + R)) (* by observer: what it was notified of *)
}.

Definition noTraffic : Http := {| requests := []; calls := []; observed := [] |}.

(** Building the pipeline sends nothing. *)
Definition pipeline (p : P) (st : Http) : nat * Http :=
  (length (calls st),
   {| requests := requests st;
      calls := calls st ++
        [{| request := p; soFar := 0; connected := false; replay := None; waiting := [] |}];
      observed := observed st |}).

Definition notify (o : HttpErrorResponse + R) (ids : list nat)
    (obs : list (option (HttpErrorResponse + R))) : list (option (HttpErrorResponse + R)) :=
  foldl (λ acc i, <[i := Some o]> acc) obs ids.

(** [pipeline.subscribe(...)] on the pipeline with handle [h]; the new
    observer is number [length (observed st)]. *)
Definition subscribe (h : nat) (st : Http) : Http :=
  match calls st !! h with
  | None => st
  | Some c =>
    let me := length (observed st) in
    match replay c with
    | Some v =>
      {| requests := requests st; calls := calls st;
         observed := observed st ++ [Some (inr v)] |}
    | None =>
      if connected c then
        {| requests := requests st;
           calls := <[h := {| request := request c; soFar := soFar c; connected := true;
                              replay := None; waiting := waiting c ++ [me] |}]> (calls st);
           observed := observed st ++ [None] |}
      else
        {| requests := requests st ++ [request c];
           calls := <[h := {| request := request c; soFar := 0; connected := true;
                              replay := None; waiting := [me] |}]> (calls st);
           observed := observed st ++ [None] |}
    end
  end.

(** The response to the pending request of pipeline [h] arrives. The
    second component is the value that leaves the [map] stage, if any. *)
Definition respond (cfg : RetryConfig) (f : B → R) (h : nat) (r : HttpResponse B)
    (st : Http) : Http * option R :=
  match calls st !! h with
  | None => (st, None)
  | Some c =>
    match connected c, replay c with
    | true, None =>
      match r with
      | HttpOk body =>
        let v := f body in
        ({| requests := requests st;
            calls := <[h := {| request := request c; soFar := soFar c; connected := true;
                               replay := Some v; waiting := [] |}]> (calls st);
            observed := notify (inr v) (waiting c) (observed st) |},
         Some v)
      | HttpFail e =>
        if retryAllows cfg (soFar c) then
          ({| requests := requests st ++ [request c];
              calls := <[h := {| request := request c; soFar := S (soFar c); connected := true;
                                 replay := None; waiting := waiting c |}]> (calls st);
              observed := observed st |},
           None)
        else
          ({| requests := requests st;
              calls := <[h := {| request := request c; soFar := 0; connected := false;
                                 replay := None; waiting := [] |}]> (calls st);
              observed := notify (inl e) (waiting c) (observed st) |},
           None)
      end
    | _, _ => (st, None)
    end
  end.

End Pipelines.

Arguments Call : clear implicits.
Arguments Http : clear implicits.

(** [getKlines(symbol, interval, limit, startTime, endTime)] returns the
    pipeline for its [params]; [respondKlines] is the arrival of a
    response for it. *)
Definition getKlines `{JsString} (sym itv : string) (lim startT endT : option Z)
    (st : Http Params.t (list KLineData.t)) : nat * Http Params.t (list KLineData.t) :=
  pipeline (klinesParams sym itv lim startT endT) st.

Definition respondKlines (h : nat) (r : HttpResponse (list (list JsValue)))
    (st : Http Params.t (list KLineData.t)) : Http Params.t (list KLineData.t) :=
  (respond restRetry decodeKlines h r st).1.

(** [getExchangeInfo()] takes no parameters; the [tap] stage publishes the
    value that leaves [map] to [_exchangeInfoSubject]. *)
Definition getExchangeInfo (st : Http () (list ExchangeSymbol)) : nat * Http () (list ExchangeSymbol) :=
  pipeline () st.

Definition respondExchangeInfo (h : nat) (r : HttpResponse ExchangeInfo)
    (st : BinanceService * Http () (list ExchangeSymbol)) :
    BinanceService * Http () (list ExchangeSymbol) :=
  let '(http, emitted) := respond restRetry tradableSymbols h r st.2 in
  (match emitted with
   | Some published => setExchangeInfo published st.1
   | None => st.1
   end, http).

(** ** Scenarios and shapes the statements below speak about *)

(** The handler on a sequence of inbound frames, oldest first. *)
Definition onMessages (frames : list JsValue) (st : BinanceService) : option BinanceService :=
  foldl (λ acc message, st' ← acc; onMessage message st') (Some st) frames.

(** The trade-event shape of the streaming protocol: an object whose
    event-type field [e] is the string [trade]. *)
Definition tradeShaped (message : JsValue) : bool :=
  match message with
  | JObj fields =>
    match lookupField "e" fields with
    | Some (JStr s) => String.eqb s "trade"
    | _ => false
    end
  | _ => false
  end.

(** Calls of [subscribeToTradeStream], each with the clock readings it
    sees, in the order they are made. *)
Definition subscribeCalls `{JsString} (calls : list ((Z * Z) * list string))
    (st : BinanceService) : BinanceService :=
  foldl (λ s c, subscribeToTradeStream c.1 c.2 s) st calls.

(** A connection drop, calls made while the service has no socket, the
    reconnection the close handler scheduled, and the socket opening. *)
Definition dropAndReopen `{JsString} (calls : list ((Z * Z) * list string)) (now : Z)
    (st : BinanceService) : BinanceService :=
  onOpen now (onReconnectTimer (subscribeCalls calls (onClose st))).

(** The example tuple of the design document. *)
Definition exampleTuple : list JsValue :=
  [ JNum 1700000000000; JStr "50000.00"; JStr "50100.00"; JStr "49900.00";
    JStr "50050.00"; JStr "12.5"; JNum 1700000059999; JStr "625625.00";
    JNum 150; JStr "6.0"; JStr "300300.00"; JStr "0" ].

Section PipelineScenarios.

Context {P B R : Type}.

(** After [st]: a pipeline for [p] was built, its first observer
    subscribed, and [k] responses to its request were failures that
    [retry] answered with a new request. *)
Definition inFlight (p : P) (k : nat) (st : Http P R) : Http P R :=
  {| requests := requests st ++ replicate (S k) p;
     calls := calls st ++
       [{| request := p; soFar := k; connected := true; replay := None;
           waiting := [length (observed st)] |}];
     observed := observed st ++ [None] |}.

(** Failure responses arriving one after the other for pipeline [h]. *)
Definition failures (cfg : RetryConfig) (f : B → R) (h : nat)
    (errors : list HttpErrorResponse) (st : Http P R) : Http P R :=
  foldl (λ s e, (respond cfg f h (HttpFail e) s).1) st errors.

End PipelineScenarios.

(** The status classes of a failed exchange. *)
Definition clientError (e : HttpErrorResponse) : bool :=
  (400 <=? httpStatus e)%Z && (httpStatus e <? 500)%Z.

(** ** Concrete data for runs of the model *)

(** A connected service that streams two pairs. *)
Definition streamingTwo : BinanceService :=
  {| _websocketSubject := Some {| closed := false |};
     _tradeDataStream := [];
     _exchangeInfoSubject := [];
     _subscribedSymbols := ["btcusdt"; "ethusdt"];
     wire := [] |}.

(** One call for hourly candles, subscribed, on a service without prior
    traffic. *)
Definition hourlyCall : nat * Http Params.t (list KLineData.t) :=
  @getKlines asciiStrings "btcusdt" "1h" (Some 100%Z) None None noTraffic.

Definition hourlyParams : Params.t :=
  {| Params.symbol := "BTCUSDT"; Params.interval := "1h"; Params.limit := 100%Z;
     Params.startTime := None; Params.endTime := None |}.

(** A directory entry with the given symbol and status. *)
Definition directoryEntry (sym st : string) : ExchangeSymbol :=
  {| symbol := sym; status := st; baseAsset := ""; baseAssetPrecision := 8;
     quoteAsset := "USDT"; quotePrecision := 8; quoteAssetPrecision := 8;
     baseCommissionPrecision := 8; quoteCommissionPrecision := 8;
     orderTypes := ["LIMIT"; "MARKET"]; icebergAllowed := true; ocoAllowed := true;
     quoteOrderQtyMarketAllowed := true; isSpotTradingAllowed := true;
     isMarginTradingAllowed := false; filters := []; permissions := ["SPOT"];
     defaultSelfTradePreventionMode := "NONE";
     allowedSelfTradePreventionModes := ["NONE"] |}.

Definition directory : ExchangeInfo :=
  {| timezone := "UTC"; serverTime := 1700000000000; rateLimits := [];
     exchangeFilters := [];
     symbols := [ directoryEntry "BTCUSDT" "TRADING"; directoryEntry "LUNAUSDT" "BREAK";
                  directoryEntry "ETHUSDT" "TRADING" ] |}.

(** Two trade frames, an acknowledgment, and a connected service with
    two listeners, the first of which already received a trade frame. *)
Definition tradeFrame : JsValue :=
  JObj [ ("e", JStr "trade"); ("E", JNum 1700000000123); ("s", JStr "ETHUSDT");
         ("t", JNum 42); ("p", JStr "2000.10"); ("q", JStr "0.5") ].

Definition earlierFrame : JsValue :=
  JObj [ ("e", JStr "trade"); ("E", JNum 1700000000007); ("s", JStr "BTCUSDT");
         ("t", JNum 41); ("p", JStr "50000.00"); ("q", JStr "0.01") ].

Definition ackFrame : JsValue := JObj [ ("result", JNull); ("id", JNum 1700000000000) ].

Definition twoListeners : BinanceService :=
  {| _websocketSubject := Some {| closed := false |};
     _tradeDataStream := [[earlierFrame]; []];
     _exchangeInfoSubject := [];
     _subscribedSymbols := ["btcusdt"; "ethusdt"];
     wire := [] |}.

(** ** The life of the service *)

(** The constructor: the field initialisers, then
    [this.getExchangeInfo().subscribe()] and [this._connect()]. *)
Definition constructService : BinanceService * Http () (list ExchangeSymbol) :=
  let call := getExchangeInfo noTraffic in
  (_connect initialService, subscribe call.1 call.2).

(** What can happen to the streaming side afterwards. *)
Inductive Event :=
  | CallSubscribe (now : Z * Z) (syms : list string)  (* [subscribeToTradeStream(syms)] *)
  | SocketOpen (now : Z)                              (* the open handler runs *)
  | SocketClose                                       (* the close handler runs *)
  | ReconnectTimer                                    (* [timer(3000)] of the close handler fires *)
  | Frame (message : JsValue)                         (* a frame arrives *)
  | Listen.                                           (* [tradeData$.subscribe(...)] *)

(** One event. The frame handler never raises (see [onMessage_cases]), so
    the state it returns is taken as it is. *)
Definition step `{JsString} (e : Event) (st : BinanceService) : BinanceService :=
  match e with
  | CallSubscribe now syms => subscribeToTradeStream now syms st
  | SocketOpen now => onOpen now st
  | SocketClose => onClose st
  | ReconnectTimer => onReconnectTimer st
  | Frame message => default st (onMessage message st)
  | Listen => registerListener st
  end.

Definition run `{JsString} (events : list Event) (st : BinanceService) : BinanceService :=
  foldl (λ s e, step e s) st events.

Section PipelineRuns.

Context {P B R : Type}.

(** Responses of any kind arriving one after the other for pipeline [h]. *)
Definition responses (cfg : RetryConfig) (f : B → R) (h : nat)
    (rs : list (HttpResponse B)) (st : Http P R) : Http P R :=
  foldl (λ s r, (respond cfg f h r s).1) st rs.

(** What one subscription makes of the responses to its requests, read
    off the operators: [retry] swallows a failure while its budget lasts,
    the first success or the failure past the budget ends the
    subscription. [None]: the outcome is still open. *)
Fixpoint outcomeOf (f : B → R) (budget : nat) (rs : list (HttpResponse B)) {struct rs} :
    option (HttpErrorResponse + R) :=
  match rs with
  | [] => None
  | HttpOk body :: _ => Some (inr (f body))
  | HttpFail e :: rest =>
    match budget with
    | O => Some (inl e)
    | S budget' => outcomeOf f budget' rest
    end
  end.

(** The number of requests that subscription sends. *)
Fixpoint requestsOf (budget : nat) (rs : list (HttpResponse B)) {struct rs} : nat :=
  match rs with
  | [] => 1
  | HttpOk _ :: _ => 1
  | HttpFail _ :: rest =>
    match budget with
    | O => 1
    | S budget' => S (requestsOf budget' rest)
    end
  end.

(** [n] further observers subscribe to pipeline [h]. *)
Definition subscribeTimes (n : nat) (h : nat) (st : Http P R) : Http P R :=
  Nat.iter n (subscribe h) st.

End PipelineRuns.

Section PipelineOutcomes.

Context {P B R : Type}.

(** The states a subscription ends in: the value buffered and delivered
    after [k] retried failures, or the error delivered and the source
    forgotten. *)
Definition succeeded (p : P) (k : nat) (v : R) (st : Http P R) : Http P R :=
  {| requests := requests st ++ replicate (S k) p;
     calls := calls st ++
       [{| request := p; soFar := k; connected := true; replay := Some v; waiting := [] |}];
     observed := observed st ++ [Some (inr v)] |}.

Definition exhausted (p : P) (k : nat) (e : HttpErrorResponse) (st : Http P R) : Http P R :=
  {| requests := requests st ++ replicate (S k) p;
     calls := calls st ++
       [{| request := p; soFar := 0; connected := false; replay := None; waiting := [] |}];
     observed := observed st ++ [Some (inl e)] |}.

(** Where the subscription of [inFlight p k st] stands after the
    responses [rs], under [retry(3)]. *)
Fixpoint settle (f : B → R) (p : P) (st : Http P R) (k : nat)
    (rs : list (HttpResponse B)) : Http P R :=
  match rs with
  | [] => inFlight p k st
  | HttpOk body :: _ => succeeded p k (f body) st
  | HttpFail e :: rest =>
    if (k <? 3)%nat then settle f p st (S k) rest else exhausted p k e st
  end.

End PipelineOutcomes.


Section PipelineSharing.

Context {P B R : Type}.

(** After [st]: a pipeline for [p] whose request is pending after [k]
    retried failures, with [S n] observers waiting for the outcome. *)
Definition awaited (p : P) (k n : nat) (st : Http P R) : Http P R :=
  {| requests := requests st ++ replicate (S k) p;
     calls := calls st ++
       [{| request := p; soFar := k; connected := true; replay := None;
           waiting := seq (length (observed st)) (S n) |}];
     observed := observed st ++ replicate (S n) None |}.

End PipelineSharing.


(** ** [getHistoricalPrices] *)

(** The object [{ '1h': ..., '24h': ..., '7d': ... }] that the joined
    observable emits. *)
Module HistoricalPrices.
Record t := {
  h1 : list KLineData.t;
  h24 : list KLineData.t;
  d7 : list KLineData.t
}.
End HistoricalPrices.

(** The body of [getHistoricalPrices] up to [forkJoin]: three calls of
    [getKlines], whose pipelines are returned in the order of the keys
    ['1h'], ['24h'], ['7d']. [now] is the reading of [Date.now()]. *)
Definition getHistoricalPrices `{JsString} (now : Z) (sym : string)
    (st : Http Params.t (list KLineData.t)) :
    (nat * nat * nat) * Http Params.t (list KLineData.t) :=
  let oneHourAgo := (now - 60 * 60 * 1000)%Z in
  let twentyFourHoursAgo := (now - 24 * 60 * 60 * 1000)%Z in
  let sevenDaysAgo := (now - 7 * 24 * 60 * 60 * 1000)%Z in
  let oneHourData := getKlines sym "1m" (Some 60%Z) (Some oneHourAgo) (Some now) st in
  let twentyFourHourData :=
    getKlines sym "1h" (Some 24%Z) (Some twentyFourHoursAgo) (Some now) oneHourData.2 in
  let sevenDayData :=
    getKlines sym "1d" (Some 7%Z) (Some sevenDaysAgo) (Some now) twentyFourHourData.2 in
  ((oneHourData.1, twentyFourHourData.1, sevenDayData.1), sevenDayData.2).

(** [forkJoin] over three sources that emit once: the first error it is
    notified of ends it; otherwise it emits once all three have emitted.
    The arguments are what its three inner observers have been notified
    of. While the join is undecided at most one of them can be an error,
    since every notification is followed by this test. *)
Definition forkJoin3 {E R : Type} (a b c : option (E + R)) : option (E + (R * R * R)) :=
  match a, b, c with
  | Some (inl e), _, _ => Some (inl e)
  | _, Some (inl e), _ => Some (inl e)
  | _, _, Some (inl e) => Some (inl e)
  | Some (inr x), Some (inr y), Some (inr z) => Some (inr (x, y, z))
  | _, _, _ => None
  end.

(** One subscription to the observable [getHistoricalPrices] returns:
    the observers [forkJoin] holds on the three pipelines and what the
    subscriber has been told. *)
Record Joined := {
  legObservers : nat * nat * nat;
  joinedOutcome : option (HttpErrorResponse + HistoricalPrices.t)
}.

(** Subscribing: [forkJoin] subscribes to its sources in key order. *)
Definition subscribeHistorical (legs : nat * nat * nat)
    (st : Http Params.t (list KLineData.t)) : Joined * Http Params.t (list KLineData.t) :=
  let st1 := subscribe legs.1.1 st in
  let st2 := subscribe legs.1.2 st1 in
  let st3 := subscribe legs.2 st2 in
  ({| legObservers := (length (observed st), length (observed st1), length (observed st2));
      joinedOutcome := None |}, st3).

(** A response arrives for pipeline [h]. The pipeline handles it as ever
    ([shareReplay] keeps its source whether or not anyone listens); the
    join, unless it has ended, looks at its three observers. *)
Definition respondHistorical (h : nat) (r : HttpResponse (list (list JsValue)))
    (js : Joined * Http Params.t (list KLineData.t)) :
    Joined * Http Params.t (list KLineData.t) :=
  let st' := respondKlines h r js.2 in
  let slot o := mjoin (observed st' !! o) in
  (match joinedOutcome js.1 with
   | Some _ => js.1
   | None =>
     {| legObservers := legObservers js.1;
        joinedOutcome :=
          match forkJoin3 (slot (legObservers js.1).1.1) (slot (legObservers js.1).1.2)
                          (slot (legObservers js.1).2) with
          | Some (inl e) => Some (inl e)
          | Some (inr (x, y, z)) =>
            Some (inr {| HistoricalPrices.h1 := x; HistoricalPrices.h24 := y;
                         HistoricalPrices.d7 := z |})
          | None => None
          end |}
   end, st').

Definition respondsHistorical (events : list (nat * HttpResponse (list (list JsValue))))
    (js : Joined * Http Params.t (list KLineData.t)) :
    Joined * Http Params.t (list KLineData.t) :=
  foldl (λ s ev, respondHistorical ev.1 ev.2 s) js events.


(** The three requests of [getHistoricalPrices], in key order. *)
Definition hourParams `{JsString} (now : Z) (sym : string) : Params.t :=
  klinesParams sym "1m" (Some 60%Z) (Some (now - 60 * 60 * 1000)%Z) (Some now).

Definition dayParams `{JsString} (now : Z) (sym : string) : Params.t :=
  klinesParams sym "1h" (Some 24%Z) (Some (now - 24 * 60 * 60 * 1000)%Z) (Some now).

Definition weekParams `{JsString} (now : Z) (sym : string) : Params.t :=
  klinesParams sym "1d" (Some 7%Z) (Some (now - 7 * 24 * 60 * 60 * 1000)%Z) (Some now).

Definition historicalParams `{JsString} (now : Z) (sym : string) : list Params.t :=
  [hourParams now sym; dayParams now sym; weekParams now sym].

(** A pipeline nobody subscribed to yet, and one whose request is pending
    for the single observer [o] after [k] retried failures. *)
Definition idleCall {P R : Type} (p : P) : Call P R :=
  {| request := p; soFar := 0; connected := false; replay := None; waiting := [] |}.

Definition pendingCall {P R : Type} (p : P) (k o : nat) : Call P R :=
  {| request := p; soFar := k; connected := true; replay := None; waiting := [o] |}.

Definition settledCall {P R : Type} (p : P) (k : nat) (v : R) : Call P R :=
  {| request := p; soFar := k; connected := true; replay := Some v; waiting := [] |}.


(** The traffic once three further pipelines exist after those of [st],
    with one observer each. *)
Definition threeLegs {P R : Type} (st : Http P R) (rq : list P) (c1 c2 c3 : Call P R)
    (s1 s2 s3 : option (HttpErrorResponse + R)) : Http P R :=
  {| requests := rq;
     calls := calls st ++ [c1; c2; c3];
     observed := observed st ++ [s1; s2; s3] |}.

(** What the subscriber of the joined observable is told, given what
    [forkJoin3] makes of its three observers. *)
Definition joinedPrices
    (o : option (HttpErrorResponse + (list KLineData.t * list KLineData.t * list KLineData.t))) :
    option (HttpErrorResponse + HistoricalPrices.t) :=
  match o with
  | Some (inl e) => Some (inl e)
  | Some (inr (x, y, z)) =>
    Some (inr {| HistoricalPrices.h1 := x; HistoricalPrices.h24 := y;
                 HistoricalPrices.d7 := z |})
  | None => None
  end.


(** The fields of a candle in the order of the wire tuple. *)
Definition candleFields (k : KLineData.t) : list JsValue :=
  [ KLineData.openTime k; KLineData.open k; KLineData.high k; KLineData.low k;
    KLineData.close k; KLineData.volume k; KLineData.closeTime k;
    KLineData.quoteAssetVolume k; KLineData.numberOfTrades k;
    KLineData.takerBuyBaseAssetVolume k; KLineData.takerBuyQuoteAssetVolume k;
    KLineData.ignore k ].


(** ** The caller: [CryptoPriceTrackerComponent]

    The component keeps the selected pair and the favourites and tells
    the service which symbols to stream. Its prices are floating-point
    numbers; the component is modelled for every carrier [N] of numbers
    with the operations it uses (class [JsNumber]), and run on the
    doubles of IEEE 754 (instance [doubles] below). [chartOptions], which
    only [updateChart] writes, and the reading of [localStorage] are left
    out; a write to [localStorage] is recorded in [saved]. Trade events
    have the fields the interface [TradeData] declares. *)

Class JsNumber (N : Type) := {
  zero : N;                       (* the literal [0] *)
  hundred : N;                    (* the literal [100] *)
  parseFloat : string → N;
  minus : N → N → N;
  divide : N → N → N;
  times : N → N → N;
  isZero : N → bool               (* [x === 0] *)
}.

Module Favorite.
Record t (N : Type) := {
  symbol : string;
  price : string;
  change : N
}.
Arguments symbol {N} _.
Arguments price {N} _.
Arguments change {N} _.
End Favorite.

Module Trade.
Record data := {
  e : string;
  E : Z;
  s : string;
  t : Z;
  p : string;
  q : string;
  b : Z;
  a : Z;
  T : Z;
  m : bool;
  M : bool
}.
End Trade.

Record Component (N : Type) := {
  availablePairs : list string;
  filteredAvailablePairs : list string;
  coinSearchTerm : string;
  selectedPair : string;
  selectedInterval : string;
  currentPrice : option string;
  currentVolume : option string;
  priceChangePercent : N;
  lastPrice : option N;
  favorites : list (Favorite.t N)
}.

Arguments availablePairs {N} _.
Arguments filteredAvailablePairs {N} _.
Arguments coinSearchTerm {N} _.
Arguments selectedPair {N} _.
Arguments selectedInterval {N} _.
Arguments currentPrice {N} _.
Arguments currentVolume {N} _.
Arguments priceChangePercent {N} _.
Arguments lastPrice {N} _.
Arguments favorites {N} _.

(** The component with the service it was given, the candle traffic, and
    the favourites last written to [localStorage]. *)
Record App (N : Type) := {
  component : Component N;
  service : BinanceService;
  candles : Http Params.t (list KLineData.t);
  saved : option (list (Favorite.t N))
}.

Arguments component {N} _.
Arguments service {N} _.
Arguments candles {N} _.
Arguments saved {N} _.

(** [intervalMap] *)
Definition intervalMap : list (string * JsValue) := [("24h", JStr "1d"); ("7d", JStr "1w")].

(** [intervals], the choices the view offers. *)
Definition intervals : list string := ["1h"; "24h"; "7d"].

(** [intervalMap] is an object literal, so a property read on it also
    finds the members of [Object.prototype]: [toString], [constructor]
    and the like, which are functions or objects and never strings.
    Such a member, read as the interval, is handed to [getKlines] as it
    is and reaches the request as the text the host makes of it.
    [prototypeMember key] is that text when [key] names a member of
    [Object.prototype], and [None] for every other name; the component is
    verified for every such function. *)
Class JsObjectPrototype := {
  prototypeMember : string → option string
}.

(** [s.includes(t)] *)
Fixpoint includes (s t : string) : bool :=
  String.prefix t s ||
  match s with
  | EmptyString => false
  | String _ rest => includes rest t
  end.

Section Tracker.

Context {N : Type} `{JsString} `{JsNumber N} `{JsObjectPrototype}.

Definition withFavorites (l : list (Favorite.t N)) (c : Component N) : Component N :=
  {| availablePairs := availablePairs c;
     filteredAvailablePairs := filteredAvailablePairs c;
     coinSearchTerm := coinSearchTerm c;
     selectedPair := selectedPair c;
     selectedInterval := selectedInterval c;
     currentPrice := currentPrice c;
     currentVolume := currentVolume c;
     priceChangePercent := priceChangePercent c;
     lastPrice := lastPrice c;
     favorites := l |}.

Definition withComponent (c : Component N) (app : App N) : App N :=
  {| component := c; service := service app; candles := candles app; saved := saved app |}.

(** [updateWebSocketSubscriptions]: the set it collects, and the call. *)
Definition symbolsWanted (c : Component N) : JsSet.t :=
  foldl (λ set fav, JsSet.add (toLowerCase (Favorite.symbol fav)) set)
    (JsSet.add (toLowerCase (selectedPair c)) JsSet.empty)
    (favorites c).

(** The lower-cased symbols the component wants streamed, as a set. *)
Definition wanted (c : Component N) : gset string :=
  {[ toLowerCase (selectedPair c) ]}
  ∪ list_to_set ((λ fav, toLowerCase (Favorite.symbol fav)) <$> favorites c).

Definition updateWebSocketSubscriptions (now : Z * Z) (app : App N) : App N :=
  {| component := component app;
     service := subscribeToTradeStream now (JsSet.toArray (symbolsWanted (component app)))
                  (service app);
     candles := candles app;
     saved := saved app |}.

(** [this.intervalMap[this.selectedInterval] || this.selectedInterval]:
    the entry of the map under that key when it has one; else the member
    of [Object.prototype] of that name, which is truthy, so that [||]
    keeps it; else, the read being [undefined], the selected interval
    itself. The entries of the map are strings. *)
Definition apiInterval (selected : string) : string :=
  match lookupField selected intervalMap with
  | Some (JStr v) => if truthy (JStr v) then v else selected
  | Some _ => selected
  | None =>
    match prototypeMember selected with
    | Some text => text
    | None => selected
    end
  end.

(** [fetchKlines]: the call of [getKlines] and the subscription to what
    it returns. *)
Definition fetchKlines (app : App N) : App N :=
  let call :=
    getKlines (selectedPair (component app)) (apiInterval (selectedInterval (component app)))
      (Some 100%Z) None None (candles app) in
  {| component := component app;
     service := service app;
     candles := subscribe call.1 call.2;
     saved := saved app |}.

Definition selectPair (now : Z * Z) (pair : string) (app : App N) : App N :=
  let c := component app in
  let c' :=
    {| availablePairs := availablePairs c;
       filteredAvailablePairs := filteredAvailablePairs c;
       coinSearchTerm := coinSearchTerm c;
       selectedPair := pair;
       selectedInterval := selectedInterval c;
       currentPrice := None;
       currentVolume := currentVolume c;
       priceChangePercent := zero;
       lastPrice := None;
       favorites := favorites c |} in
  fetchKlines (updateWebSocketSubscriptions now (withComponent c' app)).

Definition selectInterval (interval : string) (app : App N) : App N :=
  let c := component app in
  let c' :=
    {| availablePairs := availablePairs c;
       filteredAvailablePairs := filteredAvailablePairs c;
       coinSearchTerm := coinSearchTerm c;
       selectedPair := selectedPair c;
       selectedInterval := interval;
       currentPrice := currentPrice c;
       currentVolume := currentVolume c;
       priceChangePercent := priceChangePercent c;
       lastPrice := lastPrice c;
       favorites := favorites c |} in
  fetchKlines (withComponent c' app).

Definition filterCoins (c : Component N) : Component N :=
  {| availablePairs := availablePairs c;
     filteredAvailablePairs :=
       if negb (truthy (JStr (coinSearchTerm c))) then availablePairs c
       else filter (λ pair, includes (toLowerCase pair) (toLowerCase (coinSearchTerm c)) = true)
              (availablePairs c);
     coinSearchTerm := coinSearchTerm c;
     selectedPair := selectedPair c;
     selectedInterval := selectedInterval c;
     currentPrice := currentPrice c;
     currentVolume := currentVolume c;
     priceChangePercent := priceChangePercent c;
     lastPrice := lastPrice c;
     favorites := favorites c |}.

(** [this.currentPrice || '0'] *)
Definition priceOrZero (current : option string) : string :=
  match current with
  | Some text => if truthy (JStr text) then text else "0"
  | None => "0"
  end.

(** [saveFavorites] *)
Definition saveFavorites (app : App N) : App N :=
  {| component := component app; service := service app; candles := candles app;
     saved := Some (favorites (component app)) |}.

Definition addFavorite (now : Z * Z) (app : App N) : App N :=
  let c := component app in
  let symbolToAdd := selectedPair c in
  if negb (existsb (λ fav, String.eqb (Favorite.symbol fav) symbolToAdd) (favorites c)) then
    let added :=
      favorites c ++
      [{| Favorite.symbol := symbolToAdd;
          Favorite.price := priceOrZero (currentPrice c);
          Favorite.change := priceChangePercent c |}] in
    updateWebSocketSubscriptions now
      (saveFavorites (withComponent (withFavorites added c) app))
  else app.

Definition removeFavorite (now : Z * Z) (symbolToRemove : string) (app : App N) : App N :=
  let c := component app in
  let kept := filter (λ fav, Favorite.symbol fav ≠ symbolToRemove) (favorites c) in
  updateWebSocketSubscriptions now
    (saveFavorites (withComponent (withFavorites kept c) app)).

(** The observer of [exchangeInfo$] set up in [ngOnInit]. *)
Definition onExchangeInfo (now : Z * Z) (published : list ExchangeSymbol) (app : App N) : App N :=
  let c := component app in
  let pairs := symbol <$> published in
  let c1 :=
    filterCoins
      {| availablePairs := pairs;
         filteredAvailablePairs := filteredAvailablePairs c;
         coinSearchTerm := coinSearchTerm c;
         selectedPair := selectedPair c;
         selectedInterval := selectedInterval c;
         currentPrice := currentPrice c;
         currentVolume := currentVolume c;
         priceChangePercent := priceChangePercent c;
         lastPrice := lastPrice c;
         favorites := favorites c |} in
  let chosen :=
    if (0 <? length pairs)%nat && negb (bool_decide (selectedPair c1 ∈ pairs))
    then default (selectedPair c1) (head pairs)
    else selectedPair c1 in
  selectPair now chosen (withComponent c1 app).

(** [((a - b) / b) * 100] *)
Definition percentChange (a b : N) : N := times (divide (minus a b) b) hundred.

(** [favorites.findIndex(f => f.symbol.toUpperCase() === trade.s.toUpperCase())];
    [None] stands for [-1]. *)
Fixpoint findFavorite (tradeSymbol : string) (l : list (Favorite.t N)) : option nat :=
  match l with
  | [] => None
  | fav :: rest =>
    if String.eqb (toUpperCase (Favorite.symbol fav)) (toUpperCase tradeSymbol) then Some 0%nat
    else S <$> findFavorite tradeSymbol rest
  end.

(** What the observer below replaces a favourite by: [newFav]. *)
Definition repriced (trade : Trade.data) (fav : Favorite.t N) : Favorite.t N :=
  {| Favorite.symbol := Favorite.symbol fav;
     Favorite.price := Trade.p trade;
     Favorite.change :=
       if negb (isZero (parseFloat (Favorite.price fav)))
       then percentChange (parseFloat (Trade.p trade)) (parseFloat (Favorite.price fav))
       else Favorite.change fav |}.

(** The observer of [tradeData$] set up in [subscribeToTrades]. *)
Definition onTrade (trade : Trade.data) (c : Component N) : Component N :=
  let c1 :=
    if String.eqb (toUpperCase (Trade.s trade)) (toUpperCase (selectedPair c)) then
      let price := parseFloat (Trade.p trade) in
      {| availablePairs := availablePairs c;
         filteredAvailablePairs := filteredAvailablePairs c;
         coinSearchTerm := coinSearchTerm c;
         selectedPair := selectedPair c;
         selectedInterval := selectedInterval c;
         currentPrice := Some (Trade.p trade);
         currentVolume := Some (Trade.q trade);
         priceChangePercent :=
           match lastPrice c with
           | Some previous => percentChange price previous
           | None => priceChangePercent c
           end;
         lastPrice := Some price;
         favorites := favorites c |}
    else c in
  match findFavorite (Trade.s trade) (favorites c1) with
  | Some favIndex =>
    match favorites c1 !! favIndex with
    | Some fav =>
      let oldPrice := parseFloat (Favorite.price fav) in
      let newChange :=
        if negb (isZero oldPrice)
        then percentChange (parseFloat (Trade.p trade)) oldPrice
        else Favorite.change fav in
      let newFav :=
        {| Favorite.symbol := Favorite.symbol fav;
           Favorite.price := Trade.p trade;
           Favorite.change := newChange |} in
      withFavorites
        (take favIndex (favorites c1) ++ newFav :: drop (favIndex + 1) (favorites c1)) c1
    | None => c1
    end
  | None => c1
  end.

End Tracker.


(** ** Numbers

    The numbers of the language are the doubles of IEEE 754 (binary64,
    rounding to nearest, ties to even). The library's [SpecFloat] has
    them with their arithmetic; [parseFloat] is written out after the
    language definition: leading white space is skipped, the longest
    prefix that is a [StrDecimalLiteral] is read, and its value is
    rounded to the nearest double; without such a prefix the result is
    [NaN]. Strings are taken as sequences of code units below 256. *)

(** [StrWhiteSpaceChar] *)
Definition isStrWhiteSpaceChar (c : ascii) : bool :=
  bool_decide (nat_of_ascii c ∈ [9; 10; 11; 12; 13; 32; 160]%nat).

Fixpoint trimStart (text : string) : string :=
  match text with
  | String c rest => if isStrWhiteSpaceChar c then trimStart rest else text
  | EmptyString => text
  end.

(** The longest prefix of decimal digits: its value after the digits
    [acc] read so far, how many digits it has, and what follows it. *)
Fixpoint decimalDigits (acc : Z) (count : nat) (text : string) : Z * nat * string :=
  match text with
  | String c rest =>
    let n := nat_of_ascii c in
    if (48 <=? n)%nat && (n <=? 57)%nat
    then decimalDigits (10 * acc + Z.of_nat (n - 48))%Z (S count) rest
    else (acc, count, text)
  | EmptyString => (acc, count, text)
  end.

(** An optional sign: whether it is [-], and what follows it. *)
Definition signPrefix (text : string) : bool * string :=
  match text with
  | String "-" rest => (true, rest)
  | String "+" rest => (false, rest)
  | _ => (false, text)
  end.

(** The value of the [ExponentPart] the text starts with, 0 when it does
    not start with a complete one. *)
Definition exponentPart (text : string) : Z :=
  match text with
  | String c rest =>
    if bool_decide (c = "e"%char ∨ c = "E"%char) then
      let '(negative, rest') := signPrefix rest in
      let '(value, count, _) := decimalDigits 0 0 rest' in
      if (0 <? count)%nat then (if negative then - value else value)%Z else 0%Z
    else 0%Z
  | EmptyString => 0%Z
  end.

(** The double nearest to [m * 10 ^ e], with the given sign. *)
Definition decimalToDouble (negative : bool) (m : positive) (e : Z) : spec_float :=
  match e with
  | Zneg k =>
    SFdiv 53 1024 (S754_finite negative m 0) (S754_finite false (10 ^ k)%positive 0)
  | _ => binary_normalize 53 1024 ((if negative then Zneg m else Zpos m) * 10 ^ e)%Z 0 false
  end.

Definition parseFloatDouble (text : string) : spec_float :=
  let '(negative, unsigned) := signPrefix (trimStart text) in
  if String.prefix "Infinity" unsigned then S754_infinity negative
  else
    let '(whole, wholeCount, afterWhole) := decimalDigits 0 0 unsigned in
    let '(mantissa, fractionCount, afterFraction) :=
      match afterWhole with
      | String "." rest =>
        let '(m, count, after) := decimalDigits whole 0 rest in
        if (0 <? wholeCount + count)%nat then (m, count, after) else (whole, 0%nat, afterWhole)
      | _ => (whole, 0%nat, afterWhole)
      end in
    if (wholeCount + fractionCount =? 0)%nat then S754_nan
    else
      match mantissa with
      | Zpos m => decimalToDouble negative m (exponentPart afterFraction - Z.of_nat fractionCount)
      | _ => S754_zero negative
      end.

(** The value of a whole-number literal. *)
Definition numberLiteral (z : Z) : spec_float := binary_normalize 53 1024 z 0 false.

Definition doubles : JsNumber spec_float :=
  {| zero := numberLiteral 0;
     hundred := numberLiteral 100;
     parseFloat := parseFloatDouble;
     minus := SFsub 53 1024;
     divide := SFdiv 53 1024;
     times := SFmul 53 1024;
     isZero x := SFeqb x (numberLiteral 0) |}.

(** [Object.prototype] as the language defines it, with the text that V8
    gives its functions. *)
Definition objectPrototype : JsObjectPrototype :=
  {| prototypeMember key :=
       if String.eqb key "constructor" then Some "function Object() { [native code] }"
       else if String.eqb key "__proto__" then Some "[object Object]"
       else if bool_decide (key ∈ ["hasOwnProperty"; "isPrototypeOf"; "propertyIsEnumerable";
                                   "toLocaleString"; "toString"; "valueOf";
                                   "__defineGetter__"; "__defineSetter__";
                                   "__lookupGetter__"; "__lookupSetter__"])
       then Some ("function " +:+ key +:+ "() { [native code] }")
       else None |}.

(** A component that shows BTCUSDT and has two favourites, on a service
    that streams them. *)
Definition trackingTwo : App spec_float :=
  {| component :=
       {| availablePairs := ["BTCUSDT"; "ETHUSDT"; "BNBUSDT"];
          filteredAvailablePairs := ["BTCUSDT"; "ETHUSDT"; "BNBUSDT"];
          coinSearchTerm := "";
          selectedPair := "BTCUSDT";
          selectedInterval := "24h";
          currentPrice := Some "50000";
          currentVolume := Some "1";
          priceChangePercent := numberLiteral 2;
          lastPrice := Some (numberLiteral 50000);
          favorites :=
            [ {| Favorite.symbol := "BTCUSDT"; Favorite.price := "50000";
                 Favorite.change := numberLiteral 0 |};
              {| Favorite.symbol := "ETHUSDT"; Favorite.price := "2000";
                 Favorite.change := numberLiteral 0 |} ] |};
     service := streamingTwo;
     candles := noTraffic;
     saved := None |}.

Definition ethTrade : Trade.data :=
  {| Trade.e := "trade"; Trade.E := 1700000000123; Trade.s := "ETHUSDT"; Trade.t := 42;
     Trade.p := "2100"; Trade.q := "3"; Trade.b := 1; Trade.a := 2;
     Trade.T := 1700000000120; Trade.m := true; Trade.M := true |}.

(** * Properties *)

(** ** [Set<string>] *)

Module JsSetFacts.
Import JsSet.

Lemma has_true s x : has s x = true ↔ x ∈ s.
Proof. unfold has. apply bool_decide_eq_true. Qed.

Lemma has_false s x : has s x = false ↔ x ∉ s.
Proof. unfold has. apply bool_decide_eq_false. Qed.

Lemma elem_of_add x y s : x ∈ add y s ↔ x = y ∨ x ∈ s.
Proof.
  unfold add. destruct (has s y) eqn:E.
  - apply has_true in E. split; [auto | intros [-> | ?]; auto].
  - rewrite elem_of_app, list_elem_of_singleton. tauto.
Qed.

Lemma elem_of_delete x y s : x ∈ delete y s ↔ x ≠ y ∧ x ∈ s.
Proof. unfold delete. by rewrite list_elem_of_filter. Qed.

Lemma NoDup_add y s : NoDup s → NoDup (add y s).
Proof.
  intros Hs. unfold add. destruct (has s y) eqn:E; [done |].
  apply has_false in E. apply NoDup_app. split_and!; [done | | apply NoDup_singleton].
  intros x Hx ->%list_elem_of_singleton. done.
Qed.

Lemma NoDup_delete y s : NoDup s → NoDup (delete y s).
Proof. apply NoDup_filter. Qed.

Lemma elem_of_foldl_add x l s :
  x ∈ foldl (λ set y, add y set) s l ↔ x ∈ s ∨ x ∈ l.
Proof.
  revert s. induction l as [| y l IH]; intros s; simpl.
  - rewrite elem_of_nil. tauto.
  - rewrite IH, elem_of_add, elem_of_cons. tauto.
Qed.

Lemma elem_of_foldl_delete x l s :
  x ∈ foldl (λ set y, delete y set) s l ↔ x ∈ s ∧ x ∉ l.
Proof.
  revert s. induction l as [| y l IH]; intros s; simpl.
  - rewrite elem_of_nil. tauto.
  - rewrite IH, elem_of_delete, not_elem_of_cons. tauto.
Qed.

Lemma NoDup_foldl_add l s : NoDup s → NoDup (foldl (λ set y, add y set) s l).
Proof. revert s. induction l; simpl; auto using NoDup_add. Qed.

Lemma NoDup_foldl_delete l s : NoDup s → NoDup (foldl (λ set y, delete y set) s l).
Proof. revert s. induction l; simpl; auto using NoDup_delete. Qed.

Lemma elem_of_ofArray x a : x ∈ ofArray a ↔ x ∈ a.
Proof.
  unfold ofArray. rewrite elem_of_foldl_add. unfold empty.
  rewrite elem_of_nil. tauto.
Qed.

Lemma NoDup_ofArray a : NoDup (ofArray a).
Proof. apply NoDup_foldl_add, NoDup_nil_2. Qed.

Lemma content_ofArray a : content (ofArray a) = list_to_set a.
Proof.
  apply set_eq. intros x. unfold content.
  rewrite !elem_of_list_to_set. apply elem_of_ofArray.
Qed.

(** A filter that keeps nothing, on lists. *)
Lemma filter_none {A} (Q : A → Prop) `{∀ x, Decision (Q x)} (l : list A) :
  (∀ x, x ∈ l → ¬ Q x) → filter Q l = [].
Proof.
  induction l as [| a l IH]; intros Hall; [done |].
  rewrite filter_cons. destruct (decide (Q a)) as [Hq | _].
  - exfalso. apply (Hall a); [left | done].
  - apply IH. intros x Hx. apply Hall. by right.
Qed.

End JsSetFacts.

(** ** Subscription reconciliation *)

Section Reconciliation.

Context `{JsString}.
Import JsSet JsSetFacts.

(** The three shapes of [_websocketSubject]: closed, live, absent. *)
Ltac socket_cases st := destruct st as [[[[]] |] ? ? ? ?]; simpl.

Lemma content_newSymbols syms : content (newSymbols syms) = normalized syms.
Proof. apply content_ofArray. Qed.

Lemma elem_of_symbolsToSubscribe x active syms :
  x ∈ symbolsToSubscribe active syms ↔ x ∈ toLowerCase <$> syms ∧ x ∉ active.
Proof.
  unfold symbolsToSubscribe, toArray, newSymbols.
  rewrite list_elem_of_filter, has_false, elem_of_ofArray. tauto.
Qed.

Lemma elem_of_symbolsToUnsubscribe x active syms :
  x ∈ symbolsToUnsubscribe active syms ↔ x ∈ active ∧ x ∉ toLowerCase <$> syms.
Proof.
  unfold symbolsToUnsubscribe, toArray, newSymbols.
  rewrite list_elem_of_filter, has_false, elem_of_ofArray. tauto.
Qed.

Lemma send_subscribed now m l st :
  _subscribedSymbols (_sendSubscriptionMessage now m l st) = _subscribedSymbols st.
Proof. unfold _sendSubscriptionMessage, socketUsable. by socket_cases st. Qed.

Lemma send_socket now m l st :
  socketUsable (_sendSubscriptionMessage now m l st) = socketUsable st.
Proof. unfold _sendSubscriptionMessage, socketUsable. by socket_cases st. Qed.

Lemma socketUsable_setSubscribed s st :
  socketUsable (setSubscribedSymbols s st) = socketUsable st.
Proof. reflexivity. Qed.

Lemma send_wire now m l st :
  wire (_sendSubscriptionMessage now m l st) =
  wire st ++
    (if socketUsable st then [{| method := m; params := streamName <$> l; id := now |}]
     else []).
Proof.
  unfold _sendSubscriptionMessage, socketUsable.
  socket_cases st; by rewrite ?app_nil_r.
Qed.

(** The four paths through [subscribeToTradeStream]. *)
Ltac subscribe_cases syms :=
  unfold subscribeToTradeStream;
  destruct (symbolsToUnsubscribe _ syms) as [| u us];
  destruct (symbolsToSubscribe _ syms) as [| a adds];
  cbn [length Nat.ltb Nat.leb].

Lemma subscribed_setSubscribed s st :
  _subscribedSymbols (setSubscribedSymbols s st) = s.
Proof. reflexivity. Qed.

Lemma wire_setSubscribed s st : wire (setSubscribedSymbols s st) = wire st.
Proof. reflexivity. Qed.

Lemma subscribe_subscribed now syms st :
  _subscribedSymbols (subscribeToTradeStream now syms st) =
  foldl (λ set s, add s set)
    (foldl (λ set s, delete s set) (_subscribedSymbols st)
       (symbolsToUnsubscribe (_subscribedSymbols st) syms))
    (symbolsToSubscribe (_subscribedSymbols st) syms).
Proof.
  subscribe_cases syms;
    by rewrite ?subscribed_setSubscribed, ?send_subscribed,
               ?subscribed_setSubscribed, ?send_subscribed.
Qed.

Lemma subscribe_socket now syms st :
  socketUsable (subscribeToTradeStream now syms st) = socketUsable st.
Proof.
  subscribe_cases syms;
    by rewrite ?socketUsable_setSubscribed, ?send_socket,
               ?socketUsable_setSubscribed, ?send_socket.
Qed.

Lemma subscribe_wire now syms st :
  wire (subscribeToTradeStream now syms st) =
  wire st ++
    (if socketUsable st then commands now (_subscribedSymbols st) syms else []).
Proof.
  unfold commands. subscribe_cases syms;
    rewrite ?wire_setSubscribed, ?send_wire, ?wire_setSubscribed, ?send_wire,
            ?socketUsable_setSubscribed, ?send_socket;
    destruct (socketUsable st); by rewrite ?app_nil_r, <- ?app_assoc.
Qed.

Lemma elem_of_subscribed_after now syms st x :
  x ∈ _subscribedSymbols (subscribeToTradeStream now syms st) ↔ x ∈ toLowerCase <$> syms.
Proof.
  rewrite subscribe_subscribed, elem_of_foldl_add, elem_of_foldl_delete.
  rewrite elem_of_symbolsToSubscribe.
  assert (Hdec : x ∈ _subscribedSymbols st ∨ x ∉ _subscribedSymbols st)
    by (destruct (decide (x ∈ _subscribedSymbols st)); auto).
  assert (Hdec' : x ∈ toLowerCase <$> syms ∨ x ∉ toLowerCase <$> syms)
    by (destruct (decide (x ∈ toLowerCase <$> syms)); auto).
  rewrite elem_of_symbolsToUnsubscribe. tauto.
Qed.

Lemma content_subscribed_after now syms st :
  content (_subscribedSymbols (subscribeToTradeStream now syms st)) = normalized syms.
Proof.
  apply set_eq. intros x. unfold content, normalized.
  rewrite !elem_of_list_to_set. apply elem_of_subscribed_after.
Qed.

Lemma NoDup_subscribed_after now syms st :
  NoDup (_subscribedSymbols st) →
  NoDup (_subscribedSymbols (subscribeToTradeStream now syms st)).
Proof.
  intros Hs. rewrite subscribe_subscribed.
  by apply NoDup_foldl_add, NoDup_foldl_delete.
Qed.

Lemma nothing_to_do active syms :
  content active = normalized syms →
  symbolsToSubscribe active syms = [] ∧ symbolsToUnsubscribe active syms = [].
Proof.
  intros Heq.
  assert (Hiff : ∀ x, x ∈ active ↔ x ∈ toLowerCase <$> syms).
  { intros x. unfold content, normalized in Heq.
    rewrite <- (elem_of_list_to_set (C:=gset string) x active), Heq.
    apply elem_of_list_to_set. }
  split.
  - unfold symbolsToSubscribe, toArray, newSymbols. apply filter_none.
    intros x Hx Hhas. simpl in Hhas.
    apply has_false in Hhas. apply Hhas, (proj2 (Hiff x)).
    exact (proj1 (elem_of_ofArray _ _) Hx).
  - unfold symbolsToUnsubscribe, toArray, newSymbols. apply filter_none.
    intros x Hx Hhas. simpl in Hhas.
    apply has_false in Hhas. apply Hhas.
    exact (proj2 (elem_of_ofArray _ _) (proj1 (Hiff x) Hx)).
Qed.

Lemma subscribe_same_is_identity now syms st :
  content (_subscribedSymbols st) = normalized syms →
  subscribeToTradeStream now syms st = st.
Proof.
  intros [Hs Hu]%nothing_to_do. unfold subscribeToTradeStream.
  by rewrite Hs, Hu.
Qed.

End Reconciliation.

Section ReconciliationTheorems.

Context `{JsString}.
Import JsSet JsSetFacts.

(** C1. [subscribeToTradeStream] reconciles the active set with the
    desired one: after lower-casing, the identifiers it subscribes are
    [desired ∖ active] and those it unsubscribes are [active ∖ desired];
    the two are disjoint, and the additions together with the
    identifiers that stay make up the desired set; the commands handed to a usable socket are
    built from exactly these two lists; when the desired set equals the
    active set both lists are empty and the call changes nothing and
    sends nothing; a second call with the same symbols right after the
    first sends nothing more, whatever the state of the connection. *)
Theorem reconciliation_delta (active : JsSet.t) (desired : list string) :
  list_to_set (symbolsToSubscribe active desired) = normalized desired ∖ content active
  ∧ list_to_set (symbolsToUnsubscribe active desired) = content active ∖ normalized desired
  ∧ list_to_set (symbolsToSubscribe active desired)
      ##@{gset string} list_to_set (symbolsToUnsubscribe active desired)
  ∧ list_to_set (symbolsToSubscribe active desired) ∪ (content active ∩ normalized desired)
      = normalized desired
  ∧ (∀ now st, _subscribedSymbols st = active →
       wire (subscribeToTradeStream now desired st) =
       wire st ++ (if socketUsable st then commands now active desired else []))
  ∧ (content active = normalized desired →
       symbolsToSubscribe active desired = []
       ∧ symbolsToUnsubscribe active desired = []
       ∧ (∀ now, commands now active desired = [])
       ∧ ∀ now st, _subscribedSymbols st = active →
           subscribeToTradeStream now desired st = st)
  ∧ (∀ now now' st,
       subscribeToTradeStream now' desired (subscribeToTradeStream now desired st)
       = subscribeToTradeStream now desired st).
Proof.
  split_and!.
  - apply set_eq. intros x. unfold normalized, content.
    rewrite elem_of_difference, !elem_of_list_to_set.
    apply elem_of_symbolsToSubscribe.
  - apply set_eq. intros x. unfold normalized, content.
    rewrite elem_of_difference, !elem_of_list_to_set.
    apply elem_of_symbolsToUnsubscribe.
  - apply elem_of_disjoint. intros x.
    rewrite !elem_of_list_to_set, elem_of_symbolsToSubscribe,
      elem_of_symbolsToUnsubscribe. tauto.
  - apply set_eq. intros x. unfold normalized, content.
    rewrite elem_of_union, elem_of_intersection, !elem_of_list_to_set,
      elem_of_symbolsToSubscribe.
    destruct (decide (x ∈ active)); tauto.
  - intros now st <-. apply subscribe_wire.
  - intros Heq. destruct (nothing_to_do _ _ Heq) as [Hs Hu].
    split_and!; [done | done | |].
    + intros now. unfold commands. by rewrite Hs, Hu.
    + intros now st <-. by apply subscribe_same_is_identity.
  - intros now now' st. apply subscribe_same_is_identity.
    apply content_subscribed_after.
Qed.

(** C10. After [subscribeToTradeStream(symbols)] the subscribed-symbol
    set holds exactly the lower-cased elements of [symbols] (and remains
    duplicate-free), whatever the connection state; with the websocket
    absent or closed no command reaches the wire, and the set is
    updated all the same. *)
Theorem subscribed_set_tracks_desired (now : Z * Z) (syms : list string) (st : BinanceService) :
  content (_subscribedSymbols (subscribeToTradeStream now syms st)) = normalized syms
  ∧ (∀ x, x ∈ _subscribedSymbols (subscribeToTradeStream now syms st)
          ↔ ∃ s, x = toLowerCase s ∧ s ∈ syms)
  ∧ (NoDup (_subscribedSymbols st) →
     NoDup (_subscribedSymbols (subscribeToTradeStream now syms st)))
  ∧ (socketUsable st = false →
     wire (subscribeToTradeStream now syms st) = wire st
     ∧ content (_subscribedSymbols (subscribeToTradeStream now syms st)) = normalized syms).
Proof.
  split_and!.
  - apply content_subscribed_after.
  - intros x. rewrite elem_of_subscribed_after. apply list_elem_of_fmap.
  - apply NoDup_subscribed_after.
  - intros Hdown. split; [| apply content_subscribed_after].
    by rewrite subscribe_wire, Hdown, app_nil_r.
Qed.

End ReconciliationTheorems.

(** ** The service on ticker symbols *)

Section Runs.

#[local] Existing Instance asciiStrings.

Example subscribe_swaps_one_pair :
  subscribeToTradeStream (7, 8)%Z ["ETHUSDT"; "BnbUsdt"; "ethusdt"] streamingTwo =
  {| _websocketSubject := Some {| closed := false |};
     _tradeDataStream := [];
     _exchangeInfoSubject := [];
     _subscribedSymbols := ["ethusdt"; "bnbusdt"];
     wire := [ {| method := UNSUBSCRIBE; params := ["btcusdt@trade"]; id := 7 |};
               {| method := SUBSCRIBE; params := ["bnbusdt@trade"]; id := 8 |} ] |}.
Proof. vm_compute. reflexivity. Qed.

Example subscribe_while_down :
  subscribeToTradeStream (7, 8)%Z ["ETHUSDT"; "BnbUsdt"] (onClose streamingTwo) =
  {| _websocketSubject := None;
     _tradeDataStream := [];
     _exchangeInfoSubject := [];
     _subscribedSymbols := ["ethusdt"; "bnbusdt"];
     wire := [] |}.
Proof. vm_compute. reflexivity. Qed.

Lemma reconciliation_delta_witness :
  subscribeToTradeStream (7, 8)%Z ["ETHUSDT"; "BtcUsdt"] streamingTwo = streamingTwo.
Proof.
  destruct (reconciliation_delta ["btcusdt"; "ethusdt"] ["ETHUSDT"; "BtcUsdt"])
    as (_ & _ & _ & _ & _ & Hsame & _).
  destruct Hsame as (_ & _ & _ & Hid); [reflexivity |].
  apply Hid. reflexivity.
Defined.

Lemma subscribed_set_tracks_desired_witness :
  wire (subscribeToTradeStream (7, 8)%Z ["ETHUSDT"; "BnbUsdt"] (onClose streamingTwo)) = []
  ∧ NoDup (_subscribedSymbols (subscribeToTradeStream (7, 8)%Z ["ETHUSDT"; "BnbUsdt"] (onClose streamingTwo))).
Proof.
  destruct (subscribed_set_tracks_desired (7, 8)%Z ["ETHUSDT"; "BnbUsdt"] (onClose streamingTwo))
    as (_ & _ & Hnodup & Hdown).
  split.
  - apply Hdown. reflexivity.
  - apply Hnodup. apply (bool_decide_unpack _). vm_compute. exact I.
Defined.

End Runs.

(** ** Backoff *)

Lemma wsRetryDelay_mono (n m : Z) : (n ≤ m)%Z → (wsRetryDelay n ≤ wsRetryDelay m)%Z.
Proof. unfold wsRetryDelay. lia. Qed.

Lemma wsRetryDelay_ceiling (n : Z) : (wsRetryDelay n ≤ 5000)%Z.
Proof. unfold wsRetryDelay. lia. Qed.

(** C4, as stated, fails: the delay policy of the websocket pipeline is not
    the one of the REST pipelines. Before the first resubscription the
    websocket pipeline waits a second, [getKlines] and [getExchangeInfo]
    do not wait; the close handler waits three seconds whatever the
    attempt. *)
Lemma backoff_not_shared :
  retryDelay wsRetry 1 = 1000%Z
  ∧ retryDelay restRetry 1 = 0%Z
  ∧ reconnectDelay = 3000%Z
  ∧ ¬ (∀ n, (0 ≤ n)%Z → retryDelay restRetry n = retryDelay wsRetry n).
Proof.
  split_and!; [reflexivity | reflexivity | reflexivity |].
  intros Hsame. specialize (Hsame 1%Z ltac:(lia)). vm_compute in Hsame. discriminate.
Qed.

(** C4, amended. The websocket pipeline waits [min(n, 5) * 1000]
    milliseconds before resubscription [n]: non-decreasing in [n] and at
    most 5000. The REST pipelines ([retry(3)]) resubscribe without delay,
    and the close handler reconnects after a constant 3000 milliseconds;
    both are within the same ceiling, neither grows with the attempt. *)
Theorem backoff_policy :
  (∀ n, retryDelay wsRetry n = (Z.min n 5 * 1000)%Z)
  ∧ (∀ n m, (0 ≤ n)%Z → (n ≤ m)%Z → (retryDelay wsRetry n ≤ retryDelay wsRetry m)%Z)
  ∧ (∀ n, (0 ≤ n)%Z → (0 ≤ retryDelay wsRetry n ≤ 5000)%Z)
  ∧ (∀ n, (5 ≤ n)%Z → retryDelay wsRetry n = 5000%Z)
  ∧ (∀ n, retryDelay restRetry n = 0%Z)
  ∧ (reconnectDelay = 3000%Z ∧ (reconnectDelay ≤ 5000)%Z).
Proof.
  split_and!; try reflexivity.
  - intros n m _. apply wsRetryDelay_mono.
  - intros n Hn. unfold retryDelay, wsRetry, wsRetryDelay; simpl. lia.
  - intros n Hn. unfold retryDelay, wsRetry, wsRetryDelay; simpl. lia.
  - unfold reconnectDelay. lia.
Qed.

Lemma backoff_policy_witness :
  (retryDelay wsRetry 2 ≤ retryDelay wsRetry 9)%Z
  ∧ (0 ≤ retryDelay wsRetry 9 ≤ 5000)%Z
  ∧ retryDelay wsRetry 9 = 5000%Z.
Proof.
  destruct backoff_policy as (_ & Hmono & Hbound & Hcap & _).
  split; [| split].
  - apply Hmono; lia.
  - apply Hbound; lia.
  - apply Hcap; lia.
Defined.

(** ** The candle request *)

Section KlinesRequest.

Context `{JsString}.

Lemma klinesParams_fields sym itv lim startT endT :
  klinesParams sym itv lim startT endT =
  {| Params.symbol := toUpperCase sym;
     Params.interval := itv;
     Params.limit := default 500%Z lim;
     Params.startTime := if truthy (optNumber startT) then startT else None;
     Params.endTime := if truthy (optNumber endT) then endT else None |}.
Proof.
  unfold klinesParams.
  by destruct (truthy (optNumber startT)), (truthy (optNumber endT)).
Qed.

(** C9. A [startTime] (or [endTime]) of 0 is tested by truthiness and so
    left out of the query, exactly as if the argument were not given:
    the request that goes out is the one for the default range. Any
    other time is sent as given. *)
Theorem zero_time_is_dropped (sym itv : string) (lim other : option Z) :
  Params.startTime (klinesParams sym itv lim (Some 0%Z) other) = None
  ∧ Params.endTime (klinesParams sym itv lim other (Some 0%Z)) = None
  ∧ klinesParams sym itv lim (Some 0%Z) other = klinesParams sym itv lim None other
  ∧ klinesParams sym itv lim other (Some 0%Z) = klinesParams sym itv lim other None
  ∧ (∀ st, requests (subscribe (getKlines sym itv lim (Some 0%Z) (Some 0%Z) st).1
                               (getKlines sym itv lim (Some 0%Z) (Some 0%Z) st).2)
           = requests st ++
             [{| Params.symbol := toUpperCase sym; Params.interval := itv;
                 Params.limit := default 500%Z lim;
                 Params.startTime := None; Params.endTime := None |}])
  ∧ (∀ t, t ≠ 0%Z →
       Params.startTime (klinesParams sym itv lim (Some t) other) = Some t
       ∧ Params.endTime (klinesParams sym itv lim other (Some t)) = Some t).
Proof.
  rewrite !klinesParams_fields. simpl. split_and!; try reflexivity.
  - intros st. unfold getKlines, pipeline, subscribe. simpl.
    rewrite list_lookup_middle by done. simpl.
    by rewrite klinesParams_fields.
  - intros t Ht. rewrite !klinesParams_fields. simpl.
    destruct (Z.eqb_spec t 0); [done |]. done.
Qed.

End KlinesRequest.

Lemma zero_time_is_dropped_witness :
  Params.startTime (@klinesParams asciiStrings "btcusdt" "1m" (Some 60%Z) (Some 1700000000000%Z) None)
  = Some 1700000000000%Z.
Proof.
  destruct (@zero_time_is_dropped asciiStrings "btcusdt" "1m" (Some 60%Z) None)
    as (_ & _ & _ & _ & _ & Hkept).
  apply Hkept. lia.
Defined.

Example klines_request_from_epoch :
  @klinesParams asciiStrings "btcusdt" "1m" None (Some 0%Z) (Some 1700000000000%Z) =
  {| Params.symbol := "BTCUSDT"; Params.interval := "1m"; Params.limit := 500%Z;
     Params.startTime := None; Params.endTime := Some 1700000000000%Z |}.
Proof. reflexivity. Qed.

(** ** Pipelines *)

Section PipelineFacts.

Context {P B R : Type}.
Implicit Types (st : Http P R) (p : P) (f : B → R) (cfg : RetryConfig).

Lemma insert_at_end {A} (l : list A) (x y : A) (rest : list A) :
  <[length l := y]> (l ++ x :: rest) = l ++ y :: rest.
Proof.
  rewrite insert_app_r_alt by done. by rewrite Nat.sub_diag.
Qed.

Lemma subscribe_pipeline p st :
  subscribe (pipeline p st).1 (pipeline p st).2 = inFlight p 0 st.
Proof.
  unfold subscribe, pipeline, inFlight. simpl.
  rewrite list_lookup_middle by done. simpl.
  by rewrite insert_at_end.
Qed.

(** A failure that [retry] may still answer: one more request, nobody
    is notified. *)
Lemma respond_fail_retried cfg f p k e st :
  retryAllows cfg k = true →
  respond cfg f (length (calls st)) (HttpFail e) (inFlight p k st) =
  (inFlight p (S k) st, None).
Proof.
  intros Hk. unfold respond, inFlight. simpl.
  rewrite list_lookup_middle by done. simpl. rewrite Hk.
  rewrite insert_at_end. do 2 f_equal.
  rewrite <- app_assoc. f_equal.
  change (p :: replicate k p) with (replicate (S k) p).
  by rewrite <- replicate_S_end.
Qed.

(** A failure past the bound: the error itself reaches the observer,
    no request follows. *)
Lemma respond_fail_exhausted cfg f p k e st :
  retryAllows cfg k = false →
  respond cfg f (length (calls st)) (HttpFail e) (inFlight p k st) =
  ({| requests := requests st ++ replicate (S k) p;
      calls := calls st ++
        [{| request := p; soFar := 0; connected := false; replay := None; waiting := [] |}];
      observed := observed st ++ [Some (inl e)] |}, None).
Proof.
  intros Hk. unfold respond, inFlight. simpl.
  rewrite list_lookup_middle by done. simpl. rewrite Hk.
  by rewrite !insert_at_end.
Qed.

(** A success: the mapped body reaches the observer and is buffered. *)
Lemma respond_ok cfg f p k body st :
  respond cfg f (length (calls st)) (HttpOk body) (inFlight p k st) =
  ({| requests := requests st ++ replicate (S k) p;
      calls := calls st ++
        [{| request := p; soFar := k; connected := true; replay := Some (f body);
            waiting := [] |}];
      observed := observed st ++ [Some (inr (f body))] |}, Some (f body)).
Proof.
  unfold respond, inFlight. simpl.
  rewrite list_lookup_middle by done. simpl.
  by rewrite !insert_at_end.
Qed.

Lemma failures_retried cfg f p st errors :
  (∀ k, (k < length errors)%nat → retryAllows cfg k = true) →
  failures cfg f (length (calls st)) errors (inFlight p 0 st) =
  inFlight p (length errors) st.
Proof.
  induction errors as [| e errors IH] using rev_ind; intros Hallow; [done |].
  unfold failures in *. rewrite foldl_snoc, length_app, Nat.add_1_r.
  rewrite IH.
  - rewrite respond_fail_retried; [done |].
    apply Hallow. rewrite length_app. simpl. lia.
  - intros k Hk. apply Hallow. rewrite length_app. lia.
Qed.

End PipelineFacts.

Lemma respond_fail_emits_nothing {P B R : Type} cfg (f : B → R) h e (st : Http P R) :
  (respond cfg f h (HttpFail e) st).2 = None.
Proof.
  unfold respond. destruct (calls st !! h) as [c |]; [| done].
  destruct (connected c), (replay c); try done.
  by destruct (retryAllows cfg (soFar c)).
Qed.

Lemma restRetry_allows (k : nat) : retryAllows restRetry k = bool_decide (k < 3)%nat.
Proof.
  unfold retryAllows, restRetry; simpl.
  destruct (Nat.ltb_spec k 3); symmetry;
    [apply bool_decide_eq_true | apply bool_decide_eq_false]; lia.
Qed.

(** ** Candles *)

Section Candles.

Context `{JsString}.

(** C2. [getKlines] decodes each 12-element tuple by position: elements
    0 to 11 become [openTime], [open], [high], [low], [close], [volume],
    [closeTime], [quoteAssetVolume], [numberOfTrades] and the three
    remaining fields, each carried over as the very value the tuple
    holds, so a decimal string stays the same string; the decoded
    sequence has one candle per tuple, in order, and is what the
    observer of a successful call receives; the example tuple of the
    design document decodes to the candle it gives. *)
Theorem klines_decode_positionally :
  (∀ a0 a1 a2 a3 a4 a5 a6 a7 a8 a9 a10 a11 : JsValue,
     decodeKline [a0; a1; a2; a3; a4; a5; a6; a7; a8; a9; a10; a11] =
     {| KLineData.openTime := a0; KLineData.open := a1; KLineData.high := a2;
        KLineData.low := a3; KLineData.close := a4; KLineData.volume := a5;
        KLineData.closeTime := a6; KLineData.quoteAssetVolume := a7;
        KLineData.numberOfTrades := a8; KLineData.takerBuyBaseAssetVolume := a9;
        KLineData.takerBuyQuoteAssetVolume := a10; KLineData.ignore := a11 |})
  ∧ (∀ data, length (decodeKlines data) = length data
             ∧ ∀ i, decodeKlines data !! i = decodeKline <$> data !! i)
  ∧ (∀ sym itv lim startT endT st data,
       let call := getKlines sym itv lim startT endT st in
       observed (respondKlines call.1 (HttpOk data) (subscribe call.1 call.2))
       = observed st ++ [Some (inr (decodeKlines data))])
  ∧ decodeKline exampleTuple =
    {| KLineData.openTime := JNum 1700000000000;
       KLineData.open := JStr "50000.00";
       KLineData.high := JStr "50100.00";
       KLineData.low := JStr "49900.00";
       KLineData.close := JStr "50050.00";
       KLineData.volume := JStr "12.5";
       KLineData.closeTime := JNum 1700000059999;
       KLineData.quoteAssetVolume := JStr "625625.00";
       KLineData.numberOfTrades := JNum 150;
       KLineData.takerBuyBaseAssetVolume := JStr "6.0";
       KLineData.takerBuyQuoteAssetVolume := JStr "300300.00";
       KLineData.ignore := JStr "0" |}.
Proof.
  split_and!; try reflexivity.
  - intros data. unfold decodeKlines. split; [apply length_fmap | intros i; apply list_lookup_fmap].
  - intros sym itv lim startT endT st data call. subst call.
    unfold getKlines, respondKlines.
    rewrite subscribe_pipeline. simpl. by rewrite respond_ok.
Qed.

(** C3, amended. [retry(3)] resubscribes after every failure, whatever
    its status class: while at most three responses have failed, each
    failure is followed by one more request and the observer hears
    nothing; a success then delivers the decoded candles; a fourth
    failure in a row ends the call with that last error itself, as the
    HTTP layer reported it. *)
Theorem klines_retry_any_failure (sym itv : string) (lim startT endT : option Z)
    (st : Http Params.t (list KLineData.t)) :
  let p := klinesParams sym itv lim startT endT in
  let call := getKlines sym itv lim startT endT st in
  let started := subscribe call.1 call.2 in
  let failed errors := failures restRetry decodeKlines call.1 errors started in
  (∀ errors, (length errors ≤ 3)%nat →
     requests (failed errors) = requests st ++ replicate (S (length errors)) p
     ∧ observed (failed errors) = observed st ++ [None])
  ∧ (∀ errors data, (length errors ≤ 3)%nat →
     requests (respondKlines call.1 (HttpOk data) (failed errors))
       = requests st ++ replicate (S (length errors)) p
     ∧ observed (respondKlines call.1 (HttpOk data) (failed errors))
       = observed st ++ [Some (inr (decodeKlines data))])
  ∧ (∀ errors e, length errors = 3%nat →
     requests (failed (errors ++ [e])) = requests st ++ replicate 4 p
     ∧ observed (failed (errors ++ [e])) = observed st ++ [Some (inl e)]).
Proof.
  intros p call started failed.
  assert (Hrun : ∀ errors, (length errors ≤ 3)%nat →
            failed errors = inFlight p (length errors) st).
  { intros errors Hlen. subst failed started call. unfold getKlines.
    rewrite subscribe_pipeline. simpl. apply failures_retried.
    intros k Hk. rewrite restRetry_allows. apply bool_decide_eq_true. lia. }
  split_and!.
  - intros errors Hlen. by rewrite Hrun.
  - intros errors data Hlen. rewrite Hrun by done.
    subst call. unfold respondKlines, getKlines. simpl. by rewrite respond_ok.
  - intros errors e Hlen.
    assert (Hlast : failed (errors ++ [e]) =
              (respond restRetry decodeKlines call.1 (HttpFail e) (failed errors)).1).
    { subst failed. unfold failures. by rewrite foldl_snoc. }
    rewrite Hlast, Hrun by lia. subst call. unfold getKlines. simpl.
    rewrite respond_fail_exhausted by (by rewrite Hlen). simpl. by rewrite Hlen.
Qed.

End Candles.

(** C3, as stated, fails: a 4xx-class failure is retried like any other.
    After a single [400] response a second request is on its way and the
    caller has been told nothing; only the fourth [400] in a row reaches
    the caller, as the error object of the HTTP layer. *)
Lemma client_error_is_retried :
  let bad := {| httpStatus := 400 |} in
  let started := subscribe hourlyCall.1 hourlyCall.2 in
  let once := respondKlines hourlyCall.1 (HttpFail bad) started in
  let fourTimes :=
    failures restRetry decodeKlines hourlyCall.1 [bad; bad; bad; bad] started in
  clientError bad = true
  ∧ requests started = [hourlyParams]
  ∧ requests once = [hourlyParams; hourlyParams]
  ∧ observed once = [None]
  ∧ ¬ (requests once = requests started ∧ observed once = [Some (inl bad)])
  ∧ requests fourTimes = [hourlyParams; hourlyParams; hourlyParams; hourlyParams]
  ∧ observed fourTimes = [Some (inl bad)].
Proof.
  vm_compute. split_and!; try reflexivity.
  intros [Hsame _]. discriminate Hsame.
Qed.

Lemma klines_retry_any_failure_witness :
  let server := {| httpStatus := 503 |} in
  let client := {| httpStatus := 404 |} in
  let failed :=
    failures restRetry decodeKlines hourlyCall.1 [server; client]
      (subscribe hourlyCall.1 hourlyCall.2) in
  (requests failed = [hourlyParams; hourlyParams; hourlyParams] ∧ observed failed = [None])
  ∧ observed (respondKlines hourlyCall.1 (HttpOk [exampleTuple]) failed)
    = [Some (inr [decodeKline exampleTuple])]
  ∧ observed (failures restRetry decodeKlines hourlyCall.1 ([server; client; server] ++ [client])
                (subscribe hourlyCall.1 hourlyCall.2))
    = [Some (inl client)].
Proof.
  destruct (@klines_retry_any_failure asciiStrings "btcusdt" "1h" (Some 100%Z) None None noTraffic)
    as (Hretry & Hok & Hlast).
  split_and!.
  - apply (Hretry [ {| httpStatus := 503 |}; {| httpStatus := 404 |} ]). simpl. lia.
  - apply (Hretry [ {| httpStatus := 503 |}; {| httpStatus := 404 |} ]). simpl. lia.
  - apply (Hok [ {| httpStatus := 503 |}; {| httpStatus := 404 |} ] [exampleTuple]). simpl. lia.
  - apply (Hlast [ {| httpStatus := 503 |}; {| httpStatus := 404 |}; {| httpStatus := 503 |} ]
             {| httpStatus := 404 |}). reflexivity.
Defined.

(** ** Calls with the same arguments *)

Section SameArguments.

Context `{JsString}.

(** C6, amended. Nothing in [getKlines] is keyed by its arguments: every
    call builds a pipeline of its own. A second call with the same
    arguments, made while the request of the first is pending, sends a
    second request, and each caller receives the response to its own
    request. Sharing exists among the observers of the one pipeline a
    single call returned: they cause one request and receive the same
    candles, also when they subscribe after the response. *)
Theorem identical_calls_request_twice (sym itv : string) (lim startT endT : option Z)
    (st : Http Params.t (list KLineData.t)) (d1 d2 : list (list JsValue)) :
  let p := klinesParams sym itv lim startT endT in
  let first := getKlines sym itv lim startT endT st in
  let pending1 := subscribe first.1 first.2 in
  let second := getKlines sym itv lim startT endT pending1 in
  let pending2 := subscribe second.1 second.2 in
  let shared := subscribe first.1 pending1 in
  let settled := respondKlines first.1 (HttpOk d1) pending1 in
  (second.1 = S first.1
   ∧ requests pending2 = requests st ++ [p; p]
   ∧ observed (respondKlines first.1 (HttpOk d1) (respondKlines second.1 (HttpOk d2) pending2))
     = observed st ++ [Some (inr (decodeKlines d1)); Some (inr (decodeKlines d2))])
  ∧ (requests shared = requests st ++ [p]
     ∧ observed (respondKlines first.1 (HttpOk d1) shared)
       = observed st ++ [Some (inr (decodeKlines d1)); Some (inr (decodeKlines d1))])
  ∧ (requests (subscribe first.1 settled) = requests st ++ [p]
     ∧ observed (subscribe first.1 settled)
       = observed st ++ [Some (inr (decodeKlines d1)); Some (inr (decodeKlines d1))]).
Proof.
  intros p first pending1 second pending2 shared settled.
  assert (H1 : pending1 = inFlight p 0 st).
  { subst pending1 first. unfold getKlines. apply subscribe_pipeline. }
  assert (H2 : pending2 = inFlight p 0 (inFlight p 0 st)).
  { subst pending2 second. unfold getKlines. rewrite H1. apply subscribe_pipeline. }
  assert (Hh1 : first.1 = length (calls st)) by done.
  assert (Hh2 : second.1 = S (length (calls st))).
  { subst second. rewrite H1. unfold getKlines, pipeline, inFlight. simpl.
    rewrite length_app. simpl. lia. }
  split_and!.
  - by rewrite Hh1, Hh2.
  - rewrite H2. unfold inFlight. simpl. by rewrite <- app_assoc.
  - rewrite H2. unfold respondKlines.
    replace second.1 with (length (calls (inFlight p 0 st)))
      by (rewrite Hh2; unfold inFlight; simpl; rewrite length_app; simpl; lia).
    rewrite respond_ok. rewrite Hh1. unfold respond, inFlight. simpl.
    rewrite <- !app_assoc. simpl.
    rewrite list_lookup_middle by done. simpl.
    by rewrite insert_at_end.
  - subst shared. rewrite H1, Hh1. unfold subscribe, inFlight. simpl.
    by rewrite list_lookup_middle by done.
  - subst shared. rewrite H1, Hh1. unfold respondKlines, subscribe, respond, inFlight. simpl.
    rewrite list_lookup_middle by done. simpl.
    rewrite insert_at_end, list_lookup_middle by done. simpl.
    rewrite length_app. simpl. rewrite Nat.add_1_r, <- !app_assoc. simpl.
    rewrite insert_at_end.
    replace (observed st ++ [Some (inr (decodeKlines d1)); None])
      with ((observed st ++ [Some (inr (decodeKlines d1))]) ++ [None])
      by (by rewrite <- app_assoc).
    replace (S (length (observed st)))
      with (length (observed st ++ [Some (inr (decodeKlines d1))]))
      by (rewrite length_app; simpl; lia).
    rewrite insert_at_end. by rewrite <- app_assoc.
  - subst settled. rewrite H1, Hh1. unfold respondKlines. rewrite respond_ok.
    unfold subscribe. simpl. by rewrite list_lookup_middle by done.
  - subst settled. rewrite H1, Hh1. unfold respondKlines. rewrite respond_ok.
    unfold subscribe. simpl. rewrite list_lookup_middle by done. simpl.
    by rewrite <- app_assoc.
Qed.

End SameArguments.

(** C6, as stated, fails: two calls with the same arguments, the second
    made while the first is pending, put two requests on the network, and
    the callers see different candles when the two responses differ. *)
Lemma identical_calls_are_not_coalesced :
  let first := hourlyCall in
  let pending1 := subscribe first.1 first.2 in
  let second := @getKlines asciiStrings "btcusdt" "1h" (Some 100%Z) None None pending1 in
  let pending2 := subscribe second.1 second.2 in
  let answered :=
    respondKlines second.1 (HttpOk [exampleTuple; exampleTuple])
      (respondKlines first.1 (HttpOk [exampleTuple]) pending2) in
  requests pending1 = [hourlyParams]
  ∧ observed pending1 = [None]
  ∧ requests pending2 = [hourlyParams; hourlyParams]
  ∧ ¬ (length (requests pending2) ≤ 1)%nat
  ∧ observed answered =
      [Some (inr [decodeKline exampleTuple]);
       Some (inr [decodeKline exampleTuple; decodeKline exampleTuple])]
  ∧ observed answered !! 0%nat ≠ observed answered !! 1%nat.
Proof.
  vm_compute. split_and!; try reflexivity.
  - intros Hle. inversion Hle as [| ? Hle']. inversion Hle'.
  - discriminate.
Qed.

(** ** The instrument directory *)

Lemma elem_of_tradableSymbols (s : ExchangeSymbol) (info : ExchangeInfo) :
  s ∈ tradableSymbols info ↔ s ∈ symbols info ∧ status s = "TRADING".
Proof. unfold tradableSymbols. rewrite list_elem_of_filter. tauto. Qed.

(** C8. When a [getExchangeInfo] call succeeds, at once or after retried
    failures, its observer receives exactly the directory entries whose
    [status] is [TRADING], in directory order; the same list becomes the
    value of [exchangeInfo$], so the published list is the returned one;
    a failed response publishes nothing. *)
Theorem exchange_info_is_filtered_and_published (svc : BinanceService)
    (http : Http () (list ExchangeSymbol)) (errors : list HttpErrorResponse)
    (info : ExchangeInfo) :
  let call := getExchangeInfo http in
  let pending :=
    failures restRetry tradableSymbols call.1 errors (subscribe call.1 call.2) in
  let answered := respondExchangeInfo call.1 (HttpOk info) (svc, pending) in
  (length errors ≤ 3)%nat →
  observed answered.2 = observed http ++ [Some (inr (tradableSymbols info))]
  ∧ _exchangeInfoSubject answered.1 = tradableSymbols info
  ∧ observed answered.2 !! length (observed http) = Some (Some (inr (_exchangeInfoSubject answered.1)))
  ∧ (∀ s, s ∈ tradableSymbols info ↔ s ∈ symbols info ∧ status s = "TRADING")
  ∧ tradableSymbols info `sublist_of` symbols info
  ∧ answered.1 = setExchangeInfo (tradableSymbols info) svc
  ∧ (∀ h e st, (respondExchangeInfo h (HttpFail e) (svc, st)).1 = svc).
Proof.
  intros call pending answered Hlen.
  assert (Hpending : pending = inFlight () (length errors) http).
  { subst pending call. unfold getExchangeInfo. rewrite subscribe_pipeline. simpl.
    apply failures_retried. intros k Hk. rewrite restRetry_allows.
    apply bool_decide_eq_true. lia. }
  assert (Hdone : answered = (setExchangeInfo (tradableSymbols info) svc,
                          (respond restRetry tradableSymbols (length (calls http))
                             (HttpOk info) (inFlight () (length errors) http)).1)).
  { subst answered. rewrite Hpending. unfold respondExchangeInfo. simpl.
    by rewrite respond_ok. }
  rewrite Hdone, respond_ok. simpl. split_and!; try done.
  - by rewrite list_lookup_middle.
  - intros s. apply elem_of_tradableSymbols.
  - apply sublist_filter.
  - intros h e st. unfold respondExchangeInfo. simpl.
    pose proof (respond_fail_emits_nothing restRetry tradableSymbols h e st) as Hnone.
    destruct (respond restRetry tradableSymbols h (HttpFail e) st) as [http' emitted].
    simpl in Hnone. by subst emitted.
Qed.

Lemma exchange_info_is_filtered_and_published_witness :
  let call := getExchangeInfo noTraffic in
  let pending :=
    failures restRetry tradableSymbols call.1 [ {| httpStatus := 503 |} ]
      (subscribe call.1 call.2) in
  let answered := respondExchangeInfo call.1 (HttpOk directory) (initialService, pending) in
  _exchangeInfoSubject answered.1 =
    [directoryEntry "BTCUSDT" "TRADING"; directoryEntry "ETHUSDT" "TRADING"]
  ∧ observed answered.2 =
    [Some (inr [directoryEntry "BTCUSDT" "TRADING"; directoryEntry "ETHUSDT" "TRADING"])].
Proof.
  destruct (exchange_info_is_filtered_and_published initialService noTraffic
              [ {| httpStatus := 503 |} ] directory) as (Hobs & Hpub & _).
  - simpl. lia.
  - split; [exact Hpub | exact Hobs].
Defined.

(** ** Inbound frames *)

Lemma setTradeDataStream_same (st : BinanceService) :
  setTradeDataStream (_tradeDataStream st) st = st.
Proof. by destruct st. Qed.

Lemma setTradeDataStream_twice (l l' : list (list JsValue)) (st : BinanceService) :
  setTradeDataStream l (setTradeDataStream l' st) = setTradeDataStream l st.
Proof. reflexivity. Qed.

(** The guard of the handler recognises the trade-event shape. *)
Lemma trade_guard (message : JsValue) :
  (if truthy message then
     match member message "e" with
     | Some e => strictEqStr e "trade"
     | None => false
     end
   else false) = tradeShaped message.
Proof.
  destruct message as [| | [] | n | s | items | fields]; simpl; try done.
  - by destruct (n =? 0)%Z.
  - by destruct (String.eqb s "").
  - destruct (lookupField "e" fields) as [[] |]; done.
Qed.

Lemma onMessage_cases (message : JsValue) (st : BinanceService) :
  onMessage message st =
  Some (if tradeShaped message
        then setTradeDataStream (subjectNext message (_tradeDataStream st)) st
        else st).
Proof.
  rewrite <- trade_guard. unfold onMessage.
  destruct message as [| | [] | n | s | items | fields]; simpl; try done.
  - by destruct (n =? 0)%Z.
  - by destruct (String.eqb s "").
  - destruct (strictEqStr _ "trade"); [done |].
    by destruct (notUndefined _).
Qed.

Lemma onMessages_fan_out (frames : list JsValue) (st : BinanceService) :
  onMessages frames st =
  Some (setTradeDataStream
          ((λ inbox, inbox ++ filter (λ m, tradeShaped m = true) frames)
             <$> _tradeDataStream st) st).
Proof.
  unfold onMessages. induction frames as [| m frames IH] using rev_ind.
  - simpl. f_equal. rewrite <- (setTradeDataStream_same st) at 1. f_equal.
    rewrite <- (list_fmap_id (_tradeDataStream st)) at 1.
    apply list_fmap_ext. intros _ inbox _. by rewrite app_nil_r.
  - rewrite foldl_snoc, IH. simpl. rewrite onMessage_cases.
    rewrite filter_app, filter_cons, filter_nil. f_equal.
    destruct (tradeShaped m) eqn:Hm.
    + rewrite decide_True by done. simpl.
      rewrite setTradeDataStream_twice. f_equal. unfold subjectNext.
      rewrite <- list_fmap_compose. apply list_fmap_ext.
      intros _ inbox _. simpl. by rewrite app_assoc.
    + rewrite decide_False by done. by rewrite app_nil_r.
Qed.

Lemma inbox_grows (message : JsValue) (inboxes : list (list JsValue)) :
  inboxes ≠ [] → (λ inbox, inbox ++ [message]) <$> inboxes ≠ inboxes.
Proof.
  destruct inboxes as [| inbox rest]; [done |]. intros _ [= Hsame _].
  apply (f_equal length) in Hsame. rewrite length_app in Hsame. simpl in Hsame. lia.
Qed.

(** C7. A frame reaches the listeners if and only if it has the
    trade-event shape, that is, it is an object whose field [e] is the
    string [trade]: then the inbox of every registered listener, read
    from the service afterwards, is the inbox it had followed by that very
    frame; no listener is skipped, added or removed, and nothing else in
    the service changes. Any other frame, an acknowledgment carrying
    [result] or a shape the service does not know, leaves the service and
    every inbox as they were. The handler never raises, and over a run of
    frames every inbox grows by the trade frames of the run in the order
    of arrival. *)
Theorem trade_frames_reach_every_listener (message : JsValue) (st : BinanceService) :
  (tradeShaped message = true ↔
     ∃ fields, message = JObj fields ∧ lookupField "e" fields = Some (JStr "trade"))
  ∧ (tradeShaped message = true →
       onMessage message st =
       Some (setTradeDataStream ((λ inbox, inbox ++ [message]) <$> _tradeDataStream st) st))
  ∧ (tradeShaped message = false → onMessage message st = Some st)
  ∧ (onMessage message st ≠ Some st → tradeShaped message = true)
  ∧ is_Some (onMessage message st)
  ∧ (∀ frames,
       onMessages frames st =
       Some (setTradeDataStream
               ((λ inbox, inbox ++ filter (λ m, tradeShaped m = true) frames)
                  <$> _tradeDataStream st) st))
  ∧ (tradeShaped message = true →
       ∃ st', onMessage message st = Some st'
         ∧ _tradeDataStream st' = (λ inbox, inbox ++ [message]) <$> _tradeDataStream st
         ∧ length (_tradeDataStream st') = length (_tradeDataStream st)
         ∧ (∀ i inbox, _tradeDataStream st !! i = Some inbox →
              _tradeDataStream st' !! i = Some (inbox ++ [message]))
         ∧ (∀ i inbox', _tradeDataStream st' !! i = Some inbox' →
              ∃ inbox, _tradeDataStream st !! i = Some inbox ∧ inbox' = inbox ++ [message])
         ∧ _websocketSubject st' = _websocketSubject st
         ∧ _exchangeInfoSubject st' = _exchangeInfoSubject st
         ∧ _subscribedSymbols st' = _subscribedSymbols st
         ∧ wire st' = wire st)
  ∧ (tradeShaped message = false →
       _tradeDataStream <$> onMessage message st = Some (_tradeDataStream st))
  ∧ (_tradeDataStream st ≠ [] →
       (tradeShaped message = true ↔
          _tradeDataStream <$> onMessage message st ≠ Some (_tradeDataStream st)))
  ∧ (∀ frames,
       ∃ st', onMessages frames st = Some st'
         ∧ _tradeDataStream st' =
           (λ inbox, inbox ++ filter (λ m, tradeShaped m = true) frames) <$> _tradeDataStream st
         ∧ (∀ i inbox, _tradeDataStream st !! i = Some inbox →
              _tradeDataStream st' !! i =
              Some (inbox ++ filter (λ m, tradeShaped m = true) frames))
         ∧ _websocketSubject st' = _websocketSubject st
         ∧ _exchangeInfoSubject st' = _exchangeInfoSubject st
         ∧ _subscribedSymbols st' = _subscribedSymbols st
         ∧ wire st' = wire st).
Proof.
  split.
  { split.
    + destruct message as [| | | | | | fields]; simpl; try done.
      destruct (lookupField "e" fields) as [[| | | | s | |] |] eqn:He; try done.
      intros ->%String.eqb_eq. by exists fields.
    + intros (fields & -> & He). simpl. by rewrite He. }
  split; [intros Hm; by rewrite onMessage_cases, Hm |].
  split; [intros Hm; by rewrite onMessage_cases, Hm |].
  split; [rewrite onMessage_cases; by destruct (tradeShaped message) |].
  split; [rewrite onMessage_cases; by eexists |].
  split; [intros frames; apply onMessages_fan_out |].
  split.
  { intros Hm. rewrite onMessage_cases, Hm. eexists. split; [reflexivity |].
    unfold subjectNext. destruct st as [socket inboxes info subscribed sent].
    cbn [setTradeDataStream _tradeDataStream _websocketSubject _exchangeInfoSubject
         _subscribedSymbols wire].
    split; [reflexivity |]. split; [by rewrite length_fmap |].
    split; [intros i inbox Hi; by rewrite list_lookup_fmap, Hi |].
    split; [| done].
    intros i inbox'. rewrite list_lookup_fmap.
    destruct (inboxes !! i) as [inbox |]; [| done]. intros [= <-]. by exists inbox. }
  split; [intros Hm; by rewrite onMessage_cases, Hm |].
  split.
  { intros Hlisteners. rewrite onMessage_cases. destruct (tradeShaped message).
    - split; [| done]. intros _ [= Hsame]. revert Hsame.
      destruct st as [socket inboxes info subscribed sent]. cbn. unfold subjectNext.
      by apply inbox_grows.
    - split; [done |]. intros Hchanged. by destruct Hchanged. }
  intros frames. rewrite onMessages_fan_out. eexists. split; [reflexivity |].
  destruct st as [socket inboxes info subscribed sent].
  cbn [setTradeDataStream _tradeDataStream _websocketSubject _exchangeInfoSubject
       _subscribedSymbols wire].
  split; [reflexivity |]. split; [| done].
  intros i inbox Hi. by rewrite list_lookup_fmap, Hi.
Qed.

Lemma trade_frames_reach_every_listener_witness :
  _tradeDataStream <$> onMessage tradeFrame twoListeners =
    Some [[earlierFrame; tradeFrame]; [tradeFrame]]
  ∧ _tradeDataStream <$> onMessage ackFrame twoListeners = Some [[earlierFrame]; []]
  ∧ tradeShaped tradeFrame = true.
Proof.
  split; [| split].
  - destruct (trade_frames_reach_every_listener tradeFrame twoListeners)
      as (_ & _ & _ & _ & _ & _ & Hdeliver & _).
    destruct Hdeliver as (st' & Hrun & Hinboxes & _); [reflexivity |].
    rewrite Hrun. simpl. rewrite Hinboxes. reflexivity.
  - destruct (trade_frames_reach_every_listener ackFrame twoListeners)
      as (_ & _ & _ & _ & _ & _ & _ & Hdrop & _).
    apply Hdrop. reflexivity.
  - destruct (trade_frames_reach_every_listener tradeFrame twoListeners)
      as (_ & _ & _ & _ & _ & _ & _ & _ & Honly & _).
    apply Honly; vm_compute; discriminate.
Defined.

Example late_listener_misses_earlier_frames :
  (λ st, _tradeDataStream (registerListener st)) <$> onMessage tradeFrame twoListeners =
  Some [[earlierFrame; tradeFrame]; [tradeFrame]; []].
Proof. vm_compute. reflexivity. Qed.

Example frames_in_order :
  _tradeDataStream <$>
    onMessages [JNull; tradeFrame; ackFrame; JStr "ping"; JNum 0; earlierFrame] twoListeners =
  Some [[earlierFrame; tradeFrame; earlierFrame]; [tradeFrame; earlierFrame]].
Proof. vm_compute. reflexivity. Qed.

(** ** Reconnection *)

Section Reconnection.

Context `{JsString}.
Import JsSet JsSetFacts.

Lemma subscribeCalls_socket calls st :
  socketUsable (subscribeCalls calls st) = socketUsable st.
Proof.
  unfold subscribeCalls. revert st.
  induction calls as [| c calls IH]; intros st; simpl; [done |].
  by rewrite IH, subscribe_socket.
Qed.

Lemma subscribeCalls_wire_down calls st :
  socketUsable st = false → wire (subscribeCalls calls st) = wire st.
Proof.
  unfold subscribeCalls. revert st.
  induction calls as [| c calls IH]; intros st Hdown; simpl; [done |].
  rewrite IH by (by rewrite subscribe_socket).
  by rewrite subscribe_wire, Hdown, app_nil_r.
Qed.

Lemma subscribeCalls_content calls st :
  content (_subscribedSymbols (subscribeCalls calls st)) =
  match last calls with
  | Some c => normalized c.2
  | None => content (_subscribedSymbols st)
  end.
Proof.
  unfold subscribeCalls.
  induction calls as [| c calls _] using rev_ind; [done |].
  rewrite foldl_snoc, last_snoc. apply content_subscribed_after.
Qed.

Lemma connect_when_down st :
  socketUsable st = false →
  _connect st = setSocket (Some {| closed := false |}) st.
Proof. intros Hdown. unfold _connect. by rewrite Hdown. Qed.

Lemma onOpen_wire now st :
  socketUsable st = true →
  wire (onOpen now st) =
  wire st ++
    match _subscribedSymbols st with
    | [] => []
    | set => [{| method := SUBSCRIBE; params := streamName <$> set; id := now |}]
    end.
Proof.
  intros Hup. unfold onOpen, size, toArray.
  destruct (_subscribedSymbols st) as [| s set] eqn:Hset; simpl.
  - by rewrite app_nil_r.
  - by rewrite send_wire, Hup.
Qed.

Lemma onOpen_subscribed now st : _subscribedSymbols (onOpen now st) = _subscribedSymbols st.
Proof.
  unfold onOpen. destruct (0 <? size (_subscribedSymbols st))%nat; [| done].
  apply send_subscribed.
Qed.

(** C5, amended. The service keeps one set of symbols; a connection
    drop does not clear it, and calls made while the service has no
    socket update it without sending anything. When the socket opens
    again the open handler sends one SUBSCRIBE command for the whole
    current set, which holds the lower-cased symbols of the latest call
    (or the set from before the drop when no call was made), provided
    that set is not empty; for an empty set it sends nothing. The set
    itself is left as it is. *)
Theorem reopen_resubscribes_current_set (calls : list ((Z * Z) * list string)) (now : Z)
    (st : BinanceService) :
  let down := subscribeCalls calls (onClose st) in
  let up := dropAndReopen calls now st in
  _subscribedSymbols (onClose st) = _subscribedSymbols st
  ∧ wire down = wire st
  ∧ content (_subscribedSymbols down) =
      match last calls with
      | Some c => normalized c.2
      | None => content (_subscribedSymbols st)
      end
  ∧ wire up = wire st ++
      match _subscribedSymbols down with
      | [] => []
      | set => [{| method := SUBSCRIBE; params := streamName <$> set; id := now |}]
      end
  ∧ _subscribedSymbols up = _subscribedSymbols down
  ∧ socketUsable up = true.
Proof.
  intros down up.
  assert (Hdown : socketUsable down = false)
    by (subst down; by rewrite subscribeCalls_socket).
  assert (Hwire : wire down = wire st)
    by (subst down; by rewrite subscribeCalls_wire_down).
  assert (Hup : up = onOpen now (setSocket (Some {| closed := false |}) down)).
  { subst up. unfold dropAndReopen, onReconnectTimer. fold down.
    by rewrite connect_when_down. }
  split_and!; try done.
  - subst down. by rewrite subscribeCalls_content.
  - by rewrite Hup, onOpen_wire, <- Hwire.
  - by rewrite Hup, onOpen_subscribed.
  - rewrite Hup. unfold onOpen.
    destruct (0 <? size _)%nat; [by rewrite send_socket | done].
Qed.

End Reconnection.

(** C5, as stated, fails twice over. With nothing to stream the open
    handler sends no command at all; and the set of the session that
    dropped is never cleared: it is still there after the close handler
    and after the socket opened again. *)
Lemma reopen_without_clearing :
  wire (@dropAndReopen asciiStrings [] 9 (@_connect initialService)) = []
  ∧ wire (@dropAndReopen asciiStrings [((3, 3)%Z, ["BTCUSDT"]); ((4, 5)%Z, [])] 9 streamingTwo) = []
  ∧ _subscribedSymbols (onClose streamingTwo) = ["btcusdt"; "ethusdt"]
  ∧ _subscribedSymbols (@dropAndReopen asciiStrings [] 9 streamingTwo) = ["btcusdt"; "ethusdt"]
  ∧ ¬ (∃ m, wire (@dropAndReopen asciiStrings [] 9 (@_connect initialService)) = [m])
  ∧ _subscribedSymbols (onClose streamingTwo) ≠ [].
Proof.
  vm_compute. split_and!; try reflexivity.
  - intros [m Hm]. discriminate Hm.
  - discriminate.
Qed.

Example reopen_after_two_calls :
  wire (@dropAndReopen asciiStrings [((3, 3)%Z, ["BNBUSDT"]); ((4, 5)%Z, ["bnbusdt"; "EthUsdt"])] 9 streamingTwo)
  = [ {| method := SUBSCRIBE; params := ["bnbusdt@trade"; "ethusdt@trade"]; id := 9 |} ].
Proof. vm_compute. reflexivity. Qed.

(** * Further properties of the service *)

(** ** One socket, one set *)

Section SocketAndSet.

Context `{JsString}.
Import JsSet JsSetFacts.

(** X1. [_connect] leaves the service with a live socket, does nothing
    when it already has one, so that calling it again changes nothing,
    and never touches the subscribed symbols or the wire. *)
Theorem connect_keeps_one_socket (st : BinanceService) :
  socketUsable (_connect st) = true
  ∧ _connect (_connect st) = _connect st
  ∧ (socketUsable st = true → _connect st = st)
  ∧ _subscribedSymbols (_connect st) = _subscribedSymbols st
  ∧ wire (_connect st) = wire st
  ∧ _tradeDataStream (_connect st) = _tradeDataStream st.
Proof.
  assert (Hlive : socketUsable (_connect st) = true).
  { unfold _connect. by destruct (socketUsable st) eqn:E. }
  split_and!; try done.
  - unfold _connect at 1. by rewrite Hlive.
  - intros Hup. unfold _connect. by rewrite Hup.
  - unfold _connect. by destruct (socketUsable st).
  - unfold _connect. by destruct (socketUsable st).
  - unfold _connect. by destruct (socketUsable st).
Qed.

Lemma commands_shape now active syms :
  (length (commands now active syms) ≤ 2)%nat
  ∧ Forall (λ m, params m ≠ []) (commands now active syms)
  ∧ (method <$> commands now active syms) ∈
      [ []; [UNSUBSCRIBE]; [SUBSCRIBE]; [UNSUBSCRIBE; SUBSCRIBE] ].
Proof.
  unfold commands.
  destruct (symbolsToUnsubscribe active syms) as [| u us];
    destruct (symbolsToSubscribe active syms) as [| a adds]; simpl.
  - split_and!; [lia | constructor | set_solver].
  - split_and!; [lia | by repeat constructor | set_solver].
  - split_and!; [lia | by repeat constructor | set_solver].
  - split_and!; [lia | by repeat constructor | set_solver].
Qed.

(** X2. One call of [subscribeToTradeStream] hands at most two commands
    to the socket, the UNSUBSCRIBE before the SUBSCRIBE, and none of them
    with an empty list of streams. *)
Theorem subscribe_sends_at_most_two (now : Z * Z) (syms : list string) (st : BinanceService) :
  ∃ sent,
    wire (subscribeToTradeStream now syms st) = wire st ++ sent
    ∧ (length sent ≤ 2)%nat
    ∧ Forall (λ m, params m ≠ []) sent
    ∧ (method <$> sent) ∈ [ []; [UNSUBSCRIBE]; [SUBSCRIBE]; [UNSUBSCRIBE; SUBSCRIBE] ].
Proof.
  exists (if socketUsable st then commands now (_subscribedSymbols st) syms else []).
  split; [apply subscribe_wire |].
  destruct (socketUsable st).
  - apply commands_shape.
  - split_and!; [simpl; lia | constructor | set_solver].
Qed.

Lemma foldl_delete_all (s : JsSet.t) : foldl (λ set x, delete x set) s s = [].
Proof.
  destruct (foldl (λ set x, delete x set) s s) as [| x rest] eqn:E; [done |].
  assert (Hx : x ∈ foldl (λ set y, delete y set) s s) by (rewrite E; left).
  apply elem_of_foldl_delete in Hx. tauto.
Qed.

Lemma unsubscribe_all (active : JsSet.t) :
  symbolsToUnsubscribe active [] = active ∧ symbolsToSubscribe active [] = [].
Proof.
  unfold symbolsToUnsubscribe, symbolsToSubscribe, newSymbols, toArray. simpl.
  split; [| done].
  induction active as [| x active IH]; [done |].
  rewrite filter_cons_True by done. by rewrite IH.
Qed.

(** X3. [subscribeToTradeStream([])] empties the subscribed set; on a
    live socket with streams running it sends one UNSUBSCRIBE naming
    every one of them, in the order they were added, and otherwise
    nothing. *)
Theorem subscribe_to_nothing (now : Z * Z) (st : BinanceService) :
  _subscribedSymbols (subscribeToTradeStream now [] st) = []
  ∧ wire (subscribeToTradeStream now [] st) =
    wire st ++
      match socketUsable st, _subscribedSymbols st with
      | true, (_ :: _) as set =>
        [{| method := UNSUBSCRIBE; params := streamName <$> set; id := now.1 |}]
      | _, _ => []
      end.
Proof.
  destruct (unsubscribe_all (_subscribedSymbols st)) as [Hu Hs].
  split.
  - rewrite subscribe_subscribed, Hu, Hs. simpl. apply foldl_delete_all.
  - rewrite subscribe_wire. unfold commands. rewrite Hu, Hs.
    destruct (socketUsable st), (_subscribedSymbols st); simpl;
      by rewrite ?app_nil_r.
Qed.

(** X4. Only the set of lower-cased identifiers of a call matters: after
    a call, another call whose symbols have the same lower-cased set,
    in whatever spelling, order or multiplicity, changes nothing and
    sends nothing. *)
Theorem subscribe_up_to_spelling (now now' : Z * Z) (syms syms' : list string)
    (st : BinanceService) :
  normalized syms' = normalized syms →
  subscribeToTradeStream now' syms' (subscribeToTradeStream now syms st)
  = subscribeToTradeStream now syms st.
Proof.
  intros Heq. apply subscribe_same_is_identity.
  by rewrite content_subscribed_after.
Qed.

End SocketAndSet.

Lemma connect_keeps_one_socket_witness : _connect streamingTwo = streamingTwo.
Proof.
  destruct (connect_keeps_one_socket streamingTwo) as (_ & _ & Hlive & _).
  apply Hlive. reflexivity.
Defined.

Lemma subscribe_up_to_spelling_witness :
  @subscribeToTradeStream asciiStrings (5, 6)%Z ["ethusdt"; "BTCUSDT"; "EthUsdt"]
    (@subscribeToTradeStream asciiStrings (3, 4)%Z ["BtcUsdt"; "ETHUSDT"] (onClose streamingTwo))
  = @subscribeToTradeStream asciiStrings (3, 4)%Z ["BtcUsdt"; "ETHUSDT"] (onClose streamingTwo).
Proof.
  apply (@subscribe_up_to_spelling asciiStrings). vm_compute. reflexivity.
Defined.

(** ** Runs of the streaming side *)

Section StreamingRuns.

Context `{JsString}.
Import JsSet JsSetFacts.

Lemma step_frame message st :
  step (Frame message) st =
  if tradeShaped message
  then setTradeDataStream (subjectNext message (_tradeDataStream st)) st
  else st.
Proof. unfold step. by rewrite onMessage_cases. Qed.

Lemma onOpen_wire_any now st :
  wire (onOpen now st) =
  wire st ++
    match socketUsable st, _subscribedSymbols st with
    | true, (_ :: _) as set =>
      [{| method := SUBSCRIBE; params := streamName <$> set; id := now |}]
    | _, _ => []
    end.
Proof.
  unfold onOpen, size, toArray.
  destruct (_subscribedSymbols st) as [| s set] eqn:Hset; simpl.
  - destruct (socketUsable st); by rewrite app_nil_r.
  - rewrite send_wire. by destruct (socketUsable st).
Qed.

Lemma step_wire e st :
  ∃ sent, wire (step e st) = wire st ++ sent
    ∧ Forall (λ m, params m ≠ []) sent
    ∧ (socketUsable st = false → sent = []).
Proof.
  destruct e as [now syms | now | | | message |]; simpl.
  - exists (if socketUsable st then commands now (_subscribedSymbols st) syms else []).
    split; [apply subscribe_wire |].
    destruct (socketUsable st); [| by split].
    split; [apply commands_shape | done].
  - eexists. split; [apply onOpen_wire_any |].
    destruct (socketUsable st), (_subscribedSymbols st); split; try done.
    by repeat constructor.
  - exists []. by rewrite app_nil_r.
  - exists []. rewrite app_nil_r. split; [| done].
    unfold onReconnectTimer, _connect. by destruct (socketUsable st).
  - exists []. rewrite app_nil_r. split; [| done].
    rewrite onMessage_cases. simpl. by destruct (tradeShaped message).
  - exists []. by rewrite app_nil_r.
Qed.

(** X5. The wire is a history: whatever happens, an event only appends
    to it, never a command with an empty list of streams, and nothing at
    all while the service has no live socket. *)
Theorem wire_is_append_only (e : Event) (st : BinanceService) :
  wire st `prefix_of` wire (step e st)
  ∧ (Forall (λ m, params m ≠ []) (wire st) →
     Forall (λ m, params m ≠ []) (wire (step e st)))
  ∧ (socketUsable st = false → wire (step e st) = wire st).
Proof.
  destruct (step_wire e st) as (sent & -> & Hne & Hdown).
  split_and!.
  - by apply prefix_app_r.
  - intros Hold. by apply Forall_app.
  - intros ->%Hdown. by rewrite app_nil_r.
Qed.

Lemma step_subscribed_NoDup e st :
  NoDup (_subscribedSymbols st) → NoDup (_subscribedSymbols (step e st)).
Proof.
  intros Hs. destruct e as [now syms | now | | | message |]; simpl; try done.
  - by apply NoDup_subscribed_after.
  - by rewrite onOpen_subscribed.
  - unfold onReconnectTimer, _connect. by destruct (socketUsable st).
  - rewrite onMessage_cases. simpl. by destruct (tradeShaped message).
Qed.

Lemma step_subscribed_lower e st :
  (∀ x, x ∈ _subscribedSymbols st → ∃ s, x = toLowerCase s) →
  ∀ x, x ∈ _subscribedSymbols (step e st) → ∃ s, x = toLowerCase s.
Proof.
  intros Hs x. destruct e as [now syms | now | | | message |]; simpl; try apply Hs.
  - rewrite elem_of_subscribed_after, list_elem_of_fmap.
    intros (s & -> & _). by exists s.
  - rewrite onOpen_subscribed. apply Hs.
  - unfold onReconnectTimer, _connect. destruct (socketUsable st); apply Hs.
  - rewrite onMessage_cases. simpl. destruct (tradeShaped message); apply Hs.
Qed.

(** X6. In every state the service reaches from its constructor, by
    calls, socket events, timers and frames in any order, the subscribed
    set has no duplicates and holds lower-cased identifiers only, and no
    command on the wire has an empty list of streams. *)
Theorem reachable_states_are_well_formed (events : list Event) :
  NoDup (_subscribedSymbols (run events constructService.1))
  ∧ (∀ x, x ∈ _subscribedSymbols (run events constructService.1) → ∃ s, x = toLowerCase s)
  ∧ Forall (λ m, params m ≠ []) (wire (run events constructService.1)).
Proof.
  unfold run. induction events as [| e events IH] using rev_ind.
  - simpl. split_and!; [constructor | intros x Hx; by apply elem_of_nil in Hx | constructor].
  - rewrite foldl_snoc. destruct IH as (Hnodup & Hlower & Hwire). split_and!.
    + by apply step_subscribed_NoDup.
    + by apply step_subscribed_lower.
    + destruct (step_wire e (foldl (λ s e, step e s) constructService.1 events))
        as (sent & -> & Hne & _).
      by apply Forall_app.
Qed.

End StreamingRuns.

Lemma wire_is_append_only_witness :
  wire (@step asciiStrings (SocketOpen 9) (onClose streamingTwo)) = wire (onClose streamingTwo)
  ∧ Forall (λ m, params m ≠ [])
      (wire (@step asciiStrings (CallSubscribe (7, 8)%Z ["BNBUSDT"]) streamingTwo)).
Proof.
  split.
  - apply (@wire_is_append_only asciiStrings (SocketOpen 9) (onClose streamingTwo)).
    reflexivity.
  - apply (@wire_is_append_only asciiStrings (CallSubscribe (7, 8)%Z ["BNBUSDT"]) streamingTwo).
    simpl. constructor.
Defined.

Lemma reachable_states_are_well_formed_witness :
  ∃ s, "bnbusdt" = @toLowerCase asciiStrings s.
Proof.
  destruct (@reachable_states_are_well_formed asciiStrings
              [CallSubscribe (7, 8)%Z ["BtcUsdt"; "BNBUSDT"]; SocketClose;
               CallSubscribe (9, 9)%Z ["bnbusdt"]; ReconnectTimer; SocketOpen 12])
    as (_ & Hlower & _).
  apply Hlower. vm_compute. left.
Defined.

(** ** Frames and listeners *)

(** X7. Inbound frames, whatever their shape and however many, never
    raise and touch nothing but the listeners' inboxes: the socket, the
    subscribed symbols, the wire, the published directory and the number
    of listeners stay as they were. *)
Theorem frames_only_feed_listeners (frames : list JsValue) (st : BinanceService) :
  ∃ st', onMessages frames st = Some st'
    ∧ _websocketSubject st' = _websocketSubject st
    ∧ _subscribedSymbols st' = _subscribedSymbols st
    ∧ wire st' = wire st
    ∧ _exchangeInfoSubject st' = _exchangeInfoSubject st
    ∧ length (_tradeDataStream st') = length (_tradeDataStream st).
Proof.
  eexists. split; [apply onMessages_fan_out |].
  simpl. split_and!; try done. apply length_fmap.
Qed.

(** X8. A listener that registers between two runs of frames receives
    the trade frames of the second run only, in order; the listeners that
    were there before receive those of both runs. *)
Theorem late_listener_hears_later_frames (earlier later : list JsValue) (st : BinanceService) :
  ∃ st1 st2,
    onMessages earlier st = Some st1
    ∧ onMessages later (registerListener st1) = Some st2
    ∧ _tradeDataStream st2 =
        ((λ inbox, inbox ++ filter (λ m, tradeShaped m = true) (earlier ++ later))
           <$> _tradeDataStream st)
        ++ [filter (λ m, tradeShaped m = true) later].
Proof.
  eexists _, _. split; [apply onMessages_fan_out |].
  split; [apply onMessages_fan_out |].
  simpl. rewrite fmap_app. simpl. f_equal.
  rewrite <- list_fmap_compose. apply list_fmap_ext.
  intros _ inbox _. simpl. by rewrite filter_app, app_assoc.
Qed.

(** ** One subscription to a REST pipeline *)

Section OneSubscription.

Context {P B R : Type}.
Implicit Types (st : Http P R) (p : P) (f : B → R).

Lemma respond_succeeded cfg f p k v r st :
  respond cfg f (length (calls st)) r (succeeded p k v st) = (succeeded p k v st, None).
Proof.
  unfold respond, succeeded. simpl. by rewrite list_lookup_middle.
Qed.

Lemma respond_exhausted cfg f p k e r st :
  respond cfg f (length (calls st)) r (exhausted p k e st) = (exhausted p k e st, None).
Proof.
  unfold respond, exhausted. simpl. by rewrite list_lookup_middle.
Qed.

Lemma responses_succeeded cfg f p k v rs st :
  responses cfg f (length (calls st)) rs (succeeded p k v st) = succeeded p k v st.
Proof.
  unfold responses. induction rs as [| r rs IH]; simpl; [done |].
  by rewrite respond_succeeded.
Qed.

Lemma responses_exhausted cfg f p k e rs st :
  responses cfg f (length (calls st)) rs (exhausted p k e st) = exhausted p k e st.
Proof.
  unfold responses. induction rs as [| r rs IH]; simpl; [done |].
  by rewrite respond_exhausted.
Qed.

Lemma responses_cons cfg f h r rs st :
  responses cfg f h (r :: rs) st = responses cfg f h rs (respond cfg f h r st).1.
Proof. reflexivity. Qed.

Lemma responses_settle f p st rs k :
  (k ≤ 3)%nat →
  responses restRetry f (length (calls st)) rs (inFlight p k st) = settle f p st k rs.
Proof.
  revert k. induction rs as [| [body | e] rs IH]; intros k Hk; [done | |].
  - rewrite responses_cons, respond_ok. apply responses_succeeded.
  - rewrite responses_cons. simpl.
    destruct (Nat.ltb_spec k 3) as [Hlt | Hge].
    + rewrite respond_fail_retried
        by (rewrite restRetry_allows; apply bool_decide_eq_true; lia).
      apply IH. lia.
    + rewrite respond_fail_exhausted
        by (rewrite restRetry_allows; apply bool_decide_eq_false; lia).
      apply responses_exhausted.
Qed.

Lemma settle_outcome f p st rs k :
  (k ≤ 3)%nat →
  observed (settle f p st k rs) = observed st ++ [outcomeOf f (3 - k) rs]
  ∧ requests (settle f p st k rs) = requests st ++ replicate (k + requestsOf (3 - k) rs) p.
Proof.
  revert k. induction rs as [| [body | e] rs IH]; intros k Hk; simpl.
  - by rewrite Nat.add_1_r.
  - by rewrite Nat.add_1_r.
  - destruct (Nat.ltb_spec k 3) as [Hlt | Hge].
    + replace (3 - k)%nat with (S (3 - S k)) by lia.
      destruct (IH (S k) ltac:(lia)) as [-> ->]. split; [done |].
      do 2 f_equal. simpl. lia.
    + replace (3 - k)%nat with 0%nat by lia. simpl. by rewrite Nat.add_1_r.
Qed.

Lemma settle_settled f p st rs more k :
  (k ≤ 3)%nat →
  is_Some (outcomeOf f (3 - k) rs) →
  settle f p st k (rs ++ more) = settle f p st k rs.
Proof.
  revert k. induction rs as [| [body | e] rs IH]; intros k Hk Hsome; simpl.
  - by destruct Hsome.
  - done.
  - destruct (Nat.ltb_spec k 3) as [Hlt | Hge]; [| done].
    apply IH; [lia |]. revert Hsome.
    by replace (3 - k)%nat with (S (3 - S k)) by lia.
Qed.

Lemma requestsOf_bound (budget : nat) (rs : list (HttpResponse B)) :
  (1 ≤ requestsOf budget rs ≤ S budget)%nat.
Proof.
  revert budget. induction rs as [| [body | e] rs IH]; intros budget; simpl; try lia.
  destruct budget as [| budget]; [lia |]. specialize (IH budget). lia.
Qed.

(** X9. Whatever responses arrive, in whatever mix, for the request of
    one subscription to a REST pipeline, the observer is told what the
    operators prescribe: the mapped body of the first success if at most
    three failures came before it, the fourth failure otherwise, nothing
    while neither has happened. Between one and four requests are sent,
    one more for every failure that was retried, and responses past the
    outcome change nothing. *)
Theorem subscription_outcome (f : B → R) (p : P) (st : Http P R)
    (rs : list (HttpResponse B)) :
  let call := pipeline p st in
  let final := responses restRetry f call.1 rs (subscribe call.1 call.2) in
  observed final = observed st ++ [outcomeOf f 3 rs]
  ∧ requests final = requests st ++ replicate (requestsOf 3 rs) p
  ∧ (1 ≤ requestsOf 3 rs ≤ 4)%nat
  ∧ (∀ more, is_Some (outcomeOf f 3 rs) →
       responses restRetry f call.1 (rs ++ more) (subscribe call.1 call.2) = final).
Proof.
  intros call final. subst final call. rewrite subscribe_pipeline. simpl.
  rewrite responses_settle by lia.
  destruct (settle_outcome f p st rs 0 ltac:(lia)) as [Hobs Hreq].
  split; [exact Hobs |]. split; [exact Hreq |]. split.
  - apply requestsOf_bound.
  - intros more Hsome. rewrite responses_settle by lia.
    apply settle_settled; [lia | exact Hsome].
Qed.

End OneSubscription.

Lemma subscription_outcome_witness :
  let call := pipeline hourlyParams noTraffic in
  let rs := [HttpFail {| httpStatus := 500 |}; HttpOk [exampleTuple]] in
  responses restRetry decodeKlines call.1 (rs ++ [HttpFail {| httpStatus := 400 |}])
    (subscribe call.1 call.2)
  = responses restRetry decodeKlines call.1 rs (subscribe call.1 call.2).
Proof.
  apply (subscription_outcome decodeKlines hourlyParams noTraffic). simpl. by eexists.
Defined.

(** ** Observers of one pipeline *)

Section Sharing.

Context {P B R : Type}.
Implicit Types (st : Http P R) (p : P) (f : B → R).

Lemma awaited_one p k st : awaited p k 0 st = inFlight p k st.
Proof. reflexivity. Qed.

Lemma subscribe_awaited p k n st :
  subscribe (length (calls st)) (awaited p k n st) = awaited p k (S n) st.
Proof.
  unfold subscribe, awaited. simpl.
  rewrite list_lookup_middle by done. simpl. rewrite insert_at_end.
  rewrite length_app. simpl. rewrite length_replicate.
  f_equal.
  - do 3 f_equal.
    change (S (length (observed st)) :: seq (S (S (length (observed st)))) n)
      with (seq (S (length (observed st))) (S n)).
    rewrite seq_S.
    by replace (length (observed st) + S n)%nat
      with (S (length (observed st)) + n)%nat by lia.
  - rewrite <- app_assoc. f_equal. simpl. f_equal.
    change (None :: replicate n None) with (replicate (S n) (@None (HttpErrorResponse + R))).
    by rewrite replicate_S_end.
Qed.

Lemma subscribeTimes_awaited p k n st :
  subscribeTimes n (length (calls st)) (inFlight p k st) = awaited p k n st.
Proof.
  unfold subscribeTimes. induction n as [| n IH]; simpl; [done |].
  by rewrite IH, subscribe_awaited.
Qed.

Lemma notify_waiting {A} (o : A) (n : nat) (before : list (option A)) :
  foldl (λ acc i, <[i := Some o]> acc) (before ++ replicate n None) (seq (length before) n)
  = before ++ replicate n (Some o).
Proof.
  revert before. induction n as [| n IH]; intros before; simpl; [done |].
  rewrite insert_at_end.
  replace (before ++ Some o :: replicate n None)
    with ((before ++ [Some o]) ++ replicate n None) by (by rewrite <- app_assoc).
  replace (S (length before)) with (length (before ++ [Some o]))
    by (rewrite length_app; simpl; lia).
  rewrite IH. by rewrite <- app_assoc.
Qed.

Lemma subscribe_succeeded p k v st (extra : list (option (HttpErrorResponse + R))) :
  subscribe (length (calls st))
    {| requests := requests (succeeded p k v st); calls := calls (succeeded p k v st);
       observed := observed (succeeded p k v st) ++ extra |}
  = {| requests := requests (succeeded p k v st); calls := calls (succeeded p k v st);
       observed := observed (succeeded p k v st) ++ extra ++ [Some (inr v)] |}.
Proof.
  unfold subscribe, succeeded. simpl.
  rewrite list_lookup_middle by done. simpl. by rewrite <- !app_assoc.
Qed.

Lemma subscribeTimes_succeeded p k v n st :
  subscribeTimes n (length (calls st)) (succeeded p k v st) =
  {| requests := requests (succeeded p k v st); calls := calls (succeeded p k v st);
     observed := observed (succeeded p k v st) ++ replicate n (Some (inr v)) |}.
Proof.
  unfold subscribeTimes. induction n as [| n IH]; simpl.
  - unfold succeeded. simpl. by rewrite app_nil_r.
  - rewrite IH, subscribe_succeeded. do 2 f_equal.
    change (Some (inr v) :: replicate n (Some (inr v)))
      with (replicate (S n) (Some (@inr HttpErrorResponse R v))).
    by rewrite replicate_S_end.
Qed.

(** X10. However many observers join a pipeline whose request is
    pending, no further request is sent and the response reaches all of
    them; however many subscribe after the response, each receives the
    buffered value at once, again without any request. *)
Theorem observers_share_one_request (f : B → R) (p : P) (st : Http P R)
    (body : B) (n : nat) :
  let call := pipeline p st in
  let pending := subscribe call.1 call.2 in
  let crowded := subscribeTimes n call.1 pending in
  let answered := (respond restRetry f call.1 (HttpOk body) crowded).1 in
  let late := subscribeTimes n call.1 (respond restRetry f call.1 (HttpOk body) pending).1 in
  requests crowded = requests st ++ [p]
  ∧ requests answered = requests st ++ [p]
  ∧ observed answered = observed st ++ replicate (S n) (Some (inr (f body)))
  ∧ requests late = requests st ++ [p]
  ∧ observed late = observed st ++ replicate (S n) (Some (inr (f body))).
Proof.
  intros call pending crowded answered late.
  assert (Hpending : pending = inFlight p 0 st) by apply subscribe_pipeline.
  assert (Hcrowded : crowded = awaited p 0 n st).
  { subst crowded. rewrite Hpending. apply subscribeTimes_awaited. }
  assert (Hlate : late =
    {| requests := requests (succeeded p 0 (f body) st);
       calls := calls (succeeded p 0 (f body) st);
       observed := observed (succeeded p 0 (f body) st) ++ replicate n (Some (inr (f body))) |}).
  { subst late. rewrite Hpending. simpl. rewrite respond_ok. simpl.
    apply (subscribeTimes_succeeded p 0 (f body) n st). }
  split_and!.
  - by rewrite Hcrowded.
  - subst answered. rewrite Hcrowded. unfold respond, awaited. simpl.
    by rewrite list_lookup_middle.
  - subst answered. rewrite Hcrowded. unfold respond, awaited. simpl.
    rewrite list_lookup_middle by done. simpl. unfold notify.
    apply (notify_waiting (inr (f body)) (S n) (observed st)).
  - by rewrite Hlate.
  - rewrite Hlate. simpl. by rewrite <- app_assoc.
Qed.

(** X11. A failure is not kept: after a subscription ended with the
    fourth failure in a row, the next observer of the same pipeline
    causes a new request, with three retries of its own, and is told the
    outcome of that new round. *)
Theorem failure_is_not_cached (f : B → R) (p : P) (st : Http P R)
    (e1 e2 e3 e4 : HttpErrorResponse) (rs : list (HttpResponse B)) :
  let call := pipeline p st in
  let failed :=
    responses restRetry f call.1 [HttpFail e1; HttpFail e2; HttpFail e3; HttpFail e4]
      (subscribe call.1 call.2) in
  let again := responses restRetry f call.1 rs (subscribe call.1 failed) in
  observed failed = observed st ++ [Some (inl e4)]
  ∧ requests (subscribe call.1 failed) = requests st ++ replicate 5 p
  ∧ observed again = observed st ++ [Some (inl e4); outcomeOf f 3 rs]
  ∧ requests again = requests st ++ replicate (4 + requestsOf 3 rs) p.
Proof.
  intros call failed again.
  assert (Hfailed : failed = exhausted p 3 e4 st).
  { subst failed call. rewrite subscribe_pipeline.
    change (pipeline p st).1 with (length (calls st)).
    by rewrite responses_settle by lia. }
  set (st' := {| requests := requests st ++ replicate 4 p; calls := calls st;
                 observed := observed st ++ [Some (inl e4)] |}).
  assert (Hfresh : subscribe call.1 failed = inFlight p 0 st').
  { rewrite Hfailed. unfold subscribe, exhausted, inFlight. simpl.
    rewrite list_lookup_middle by done. simpl. by rewrite insert_at_end. }
  assert (Hagain : again = settle f p st' 0 rs).
  { subst again. rewrite Hfresh. apply (responses_settle f p st' rs 0). lia. }
  destruct (settle_outcome f p st' rs 0 ltac:(lia)) as [Hobs Hreq].
  split; [by rewrite Hfailed |].
  split; [rewrite Hfresh; simpl; by rewrite <- app_assoc |].
  split.
  - rewrite Hagain, Hobs. simpl. by rewrite <- app_assoc.
  - rewrite Hagain, Hreq. simpl. by rewrite <- app_assoc.
Qed.

End Sharing.

(** ** The three candle series at once *)

Section TailAccess.

Context {A : Type}.
Implicit Types (l r : list A).

Lemma lookup_tail1 l (x y : A) r : (l ++ x :: y :: r) !! S (length l) = Some y.
Proof.
  rewrite lookup_app_r by lia. by replace (S (length l) - length l)%nat with 1%nat by lia.
Qed.

Lemma lookup_tail2 l (x y z : A) r : (l ++ x :: y :: z :: r) !! S (S (length l)) = Some z.
Proof.
  rewrite lookup_app_r by lia.
  by replace (S (S (length l)) - length l)%nat with 2%nat by lia.
Qed.

Lemma insert_tail1 l (x y v : A) r :
  <[S (length l) := v]> (l ++ x :: y :: r) = l ++ x :: v :: r.
Proof.
  rewrite insert_app_r_alt by lia.
  by replace (S (length l) - length l)%nat with 1%nat by lia.
Qed.

Lemma insert_tail2 l (x y z v : A) r :
  <[S (S (length l)) := v]> (l ++ x :: y :: z :: r) = l ++ x :: y :: v :: r.
Proof.
  rewrite insert_app_r_alt by lia.
  by replace (S (S (length l)) - length l)%nat with 2%nat by lia.
Qed.

End TailAccess.

Section Historical.

Context `{JsString}.

Lemma historical_pipelines now sym st :
  getHistoricalPrices now sym st =
  ((length (calls st), S (length (calls st)), S (S (length (calls st)))),
   {| requests := requests st;
      calls := calls st ++ (idleCall <$> historicalParams now sym);
      observed := observed st |}).
Proof.
  unfold getHistoricalPrices, getKlines, pipeline. simpl.
  rewrite !length_app. simpl. rewrite <- !app_assoc. simpl.
  by rewrite !Nat.add_1_r.
Qed.

Lemma historical_subscribed now sym st :
  let p := historicalParams now sym in
  let m := length (observed st) in
  let legs := getHistoricalPrices now sym st in
  subscribeHistorical legs.1 legs.2 =
  ({| legObservers := (m, S m, S (S m)); joinedOutcome := None |},
   threeLegs st (requests st ++ p)
     (pendingCall (hourParams now sym) 0 m) (pendingCall (dayParams now sym) 0 (S m))
     (pendingCall (weekParams now sym) 0 (S (S m))) None None None).
Proof.
  intros p m legs. subst legs. rewrite historical_pipelines.
  unfold subscribeHistorical, subscribe, threeLegs. simpl.
  rewrite list_lookup_middle by done. simpl. rewrite insert_at_end.
  rewrite lookup_tail1. simpl. rewrite insert_tail1.
  rewrite lookup_tail2. simpl. rewrite insert_tail2.
  rewrite !length_app. simpl. rewrite <- !app_assoc. simpl.
  by rewrite !Nat.add_1_r.
Qed.

(** One response for one of three pending pipelines. *)
Ltac leg_response :=
  unfold respondKlines, respond, threeLegs, pendingCall, settledCall, idleCall, notify; simpl;
  rewrite ?list_lookup_middle, ?lookup_tail1, ?lookup_tail2 by done; simpl;
  rewrite ?restRetry_allows; simpl;
  rewrite ?insert_at_end, ?insert_tail1, ?insert_tail2; simpl;
  rewrite ?insert_at_end, ?insert_tail1, ?insert_tail2.

Section Legs.

Context (st : Http Params.t (list KLineData.t)) (rq : list Params.t).
Context (c1 c2 c3 : Call Params.t (list KLineData.t)).
Context (s1 s2 s3 : option (HttpErrorResponse + list KLineData.t)).
Context (p : Params.t) (k : nat) (data : list (list JsValue)) (e : HttpErrorResponse).

Let n := length (calls st).
Let m := length (observed st).

Lemma first_leg_ok :
  respondKlines n (HttpOk data) (threeLegs st rq (pendingCall p k m) c2 c3 s1 s2 s3) =
  threeLegs st rq (settledCall p k (decodeKlines data)) c2 c3
    (Some (inr (decodeKlines data))) s2 s3.
Proof. subst n m. by leg_response. Qed.

Lemma second_leg_ok :
  respondKlines (S n) (HttpOk data) (threeLegs st rq c1 (pendingCall p k (S m)) c3 s1 s2 s3) =
  threeLegs st rq c1 (settledCall p k (decodeKlines data)) c3
    s1 (Some (inr (decodeKlines data))) s3.
Proof. subst n m. by leg_response. Qed.

Lemma third_leg_ok :
  respondKlines (S (S n)) (HttpOk data)
    (threeLegs st rq c1 c2 (pendingCall p k (S (S m))) s1 s2 s3) =
  threeLegs st rq c1 c2 (settledCall p k (decodeKlines data))
    s1 s2 (Some (inr (decodeKlines data))).
Proof. subst n m. by leg_response. Qed.

Lemma first_leg_retried :
  (k < 3)%nat →
  respondKlines n (HttpFail e) (threeLegs st rq (pendingCall p k m) c2 c3 s1 s2 s3) =
  threeLegs st (rq ++ [p]) (pendingCall p (S k) m) c2 c3 s1 s2 s3.
Proof. intros Hk. subst n m. leg_response. by rewrite bool_decide_eq_true_2. Qed.

Lemma second_leg_retried :
  (k < 3)%nat →
  respondKlines (S n) (HttpFail e) (threeLegs st rq c1 (pendingCall p k (S m)) c3 s1 s2 s3) =
  threeLegs st (rq ++ [p]) c1 (pendingCall p (S k) (S m)) c3 s1 s2 s3.
Proof. intros Hk. subst n m. leg_response. by rewrite bool_decide_eq_true_2. Qed.

Lemma third_leg_retried :
  (k < 3)%nat →
  respondKlines (S (S n)) (HttpFail e)
    (threeLegs st rq c1 c2 (pendingCall p k (S (S m))) s1 s2 s3) =
  threeLegs st (rq ++ [p]) c1 c2 (pendingCall p (S k) (S (S m))) s1 s2 s3.
Proof. intros Hk. subst n m. leg_response. by rewrite bool_decide_eq_true_2. Qed.

Lemma first_leg_exhausted :
  respondKlines n (HttpFail e) (threeLegs st rq (pendingCall p 3 m) c2 c3 s1 s2 s3) =
  threeLegs st rq (idleCall p) c2 c3 (Some (inl e)) s2 s3.
Proof. subst n m. by leg_response. Qed.

Lemma second_leg_exhausted :
  respondKlines (S n) (HttpFail e) (threeLegs st rq c1 (pendingCall p 3 (S m)) c3 s1 s2 s3) =
  threeLegs st rq c1 (idleCall p) c3 s1 (Some (inl e)) s3.
Proof. subst n m. by leg_response. Qed.

Lemma third_leg_exhausted :
  respondKlines (S (S n)) (HttpFail e)
    (threeLegs st rq c1 c2 (pendingCall p 3 (S (S m))) s1 s2 s3) =
  threeLegs st rq c1 c2 (idleCall p) s1 s2 (Some (inl e)).
Proof. subst n m. by leg_response. Qed.

Lemma slots_of_threeLegs :
  mjoin (observed (threeLegs st rq c1 c2 c3 s1 s2 s3) !! m) = s1
  ∧ mjoin (observed (threeLegs st rq c1 c2 c3 s1 s2 s3) !! S m) = s2
  ∧ mjoin (observed (threeLegs st rq c1 c2 c3 s1 s2 s3) !! S (S m)) = s3.
Proof.
  subst m. unfold threeLegs. simpl.
  by rewrite list_lookup_middle, lookup_tail1, lookup_tail2.
Qed.

End Legs.

Lemma respondHistorical_undecided h r obs st :
  respondHistorical h r ({| legObservers := obs; joinedOutcome := None |}, st) =
  ({| legObservers := obs;
      joinedOutcome :=
        joinedPrices
          (forkJoin3 (mjoin (observed (respondKlines h r st) !! obs.1.1))
                     (mjoin (observed (respondKlines h r st) !! obs.1.2))
                     (mjoin (observed (respondKlines h r st) !! obs.2))) |},
   respondKlines h r st).
Proof. reflexivity. Qed.

Lemma respondsHistorical_decided events obs o st :
  (foldl (λ s ev, respondHistorical ev.1 ev.2 s)
     ({| legObservers := obs; joinedOutcome := Some o |}, st) events).1
  = {| legObservers := obs; joinedOutcome := Some o |}.
Proof.
  revert st.
  induction events as [| ev events IH]; intros st; [done |]. simpl.
  unfold respondHistorical at 2. simpl. apply IH.
Qed.

(** One step of the join over three pending or settled pipelines. *)
Ltac join_step :=
  rewrite respondHistorical_undecided; cbn [fst snd];
  rewrite ?first_leg_ok, ?second_leg_ok, ?third_leg_ok,
          ?first_leg_exhausted, ?second_leg_exhausted, ?third_leg_exhausted;
  rewrite ?first_leg_retried, ?second_leg_retried, ?third_leg_retried by lia;
  try match goal with
  | |- context [observed (threeLegs ?st ?rq ?c1 ?c2 ?c3 ?s1 ?s2 ?s3)] =>
    destruct (slots_of_threeLegs st rq c1 c2 c3 s1 s2 s3) as (-> & -> & ->)
  end; cbn [forkJoin3 joinedPrices].

(** X12. [getHistoricalPrices] sends nothing by itself; its first
    subscriber causes three candle requests, in this order: 60 one-minute
    candles of the last hour, 24 hourly candles of the last 24 hours and
    7 daily candles of the last 7 days, all ending now, for any clock
    reading later than seven days after the epoch. *)
Theorem historical_prices_requests (now : Z) (sym : string)
    (st : Http Params.t (list KLineData.t)) :
  (7 * 24 * 60 * 60 * 1000 < now)%Z →
  let legs := getHistoricalPrices now sym st in
  requests legs.2 = requests st
  ∧ joinedOutcome (subscribeHistorical legs.1 legs.2).1 = None
  ∧ requests (subscribeHistorical legs.1 legs.2).2 =
    requests st ++
      [ {| Params.symbol := toUpperCase sym; Params.interval := "1m"; Params.limit := 60;
           Params.startTime := Some (now - 3600000)%Z; Params.endTime := Some now |};
        {| Params.symbol := toUpperCase sym; Params.interval := "1h"; Params.limit := 24;
           Params.startTime := Some (now - 86400000)%Z; Params.endTime := Some now |};
        {| Params.symbol := toUpperCase sym; Params.interval := "1d"; Params.limit := 7;
           Params.startTime := Some (now - 604800000)%Z; Params.endTime := Some now |} ].
Proof.
  intros Hnow legs. subst legs. rewrite historical_subscribed.
  rewrite historical_pipelines. simpl. split_and!; try done.
  assert (Htruthy : ∀ t, t ≠ 0%Z → truthy (optNumber (Some t)) = true).
  { intros t Ht. simpl. by destruct (Z.eqb_spec t 0). }
  unfold historicalParams, hourParams, dayParams, weekParams.
  rewrite !klinesParams_fields, !Htruthy by lia. reflexivity.
Qed.

(** X13. The joined observable emits once, when the last of the three
    series has arrived, whatever the order of arrival: the object holds
    the decoded series under the keys of their requests. Until then the
    subscriber is told nothing, and no request is repeated. *)
Theorem historical_prices_join (now : Z) (sym : string)
    (st : Http Params.t (list KLineData.t)) (hour day week : list (list JsValue))
    (events : list (nat * HttpResponse (list (list JsValue)))) :
  let legs := getHistoricalPrices now sym st in
  let started := subscribeHistorical legs.1 legs.2 in
  events ≡ₚ [ (legs.1.1.1, HttpOk hour); (legs.1.1.2, HttpOk day); (legs.1.2, HttpOk week) ] →
  joinedOutcome (respondsHistorical events started).1 =
    Some (inr {| HistoricalPrices.h1 := decodeKlines hour;
                 HistoricalPrices.h24 := decodeKlines day;
                 HistoricalPrices.d7 := decodeKlines week |})
  ∧ requests (respondsHistorical events started).2 = requests st ++ historicalParams now sym
  ∧ joinedOutcome (respondsHistorical (take 1 events) started).1 = None
  ∧ joinedOutcome (respondsHistorical (take 2 events) started).1 = None.
Proof.
  intros legs started. subst started legs.
  pose proof (historical_subscribed now sym st) as Hsub. cbv zeta in Hsub.
  pose proof (historical_pipelines now sym st) as Hp.
  destruct (getHistoricalPrices now sym st) as [[[l1 l2] l3] st0].
  injection Hp as -> -> -> ->. simpl in *. rewrite Hsub. clear Hsub.
  intros Hperm. symmetry in Hperm. apply permutations_Permutation in Hperm.
  simpl in Hperm. unfold respondsHistorical.
  set_unfold in Hperm.
  destruct Hperm as [-> | [-> | [-> | [-> | [-> | [-> | []]]]]]];
    cbn [foldl take fst snd];
    (split_and!; repeat join_step; done).
Qed.


(** X14. The join fails fast. When the request of any one of the three
    series has failed four times in a row, the subscriber is told that
    last error at once, although the two other requests are still
    pending; while the retries last it is told nothing; and whatever
    arrives afterwards for any of the three, what it was told stands.
    Six requests have gone out by then. *)
Theorem historical_prices_fail_fast (now : Z) (sym : string)
    (st : Http Params.t (list KLineData.t)) (leg : nat)
    (e1 e2 e3 e4 : HttpErrorResponse)
    (more : list (nat * HttpResponse (list (list JsValue)))) :
  let legs := getHistoricalPrices now sym st in
  let started := subscribeHistorical legs.1 legs.2 in
  let failures := [(leg, HttpFail e1); (leg, HttpFail e2); (leg, HttpFail e3); (leg, HttpFail e4)] in
  leg ∈ [legs.1.1.1; legs.1.1.2; legs.1.2] →
  joinedOutcome (respondsHistorical (take 3 failures) started).1 = None
  ∧ joinedOutcome (respondsHistorical failures started).1 = Some (inl e4)
  ∧ length (requests (respondsHistorical failures started).2) = (length (requests st) + 6)%nat
  ∧ joinedOutcome (respondsHistorical (failures ++ more) started).1 = Some (inl e4).
Proof.
  intros legs started failures. subst started legs failures.
  pose proof (historical_subscribed now sym st) as Hsub. cbv zeta in Hsub.
  pose proof (historical_pipelines now sym st) as Hp.
  destruct (getHistoricalPrices now sym st) as [[[l1 l2] l3] st0].
  injection Hp as -> -> -> ->. cbn [fst snd] in *. rewrite Hsub. clear Hsub.
  intros Hleg. unfold respondsHistorical. rewrite foldl_app.
  set_unfold in Hleg.
  destruct Hleg as [-> | [-> | [-> | []]]]; cbn [foldl take fst snd];
    (split_and!;
     [ by repeat join_step
     | by repeat join_step
     | repeat join_step; unfold threeLegs; cbn [requests];
       rewrite !length_app; unfold historicalParams; simpl; lia
     | repeat join_step; by rewrite respondsHistorical_decided ]).
Qed.

End Historical.

Lemma historical_prices_requests_witness :
  requests (subscribeHistorical
              (@getHistoricalPrices asciiStrings 1700000000000 "ethusdt" noTraffic).1
              (@getHistoricalPrices asciiStrings 1700000000000 "ethusdt" noTraffic).2).2 =
  [ {| Params.symbol := "ETHUSDT"; Params.interval := "1m"; Params.limit := 60;
       Params.startTime := Some 1699996400000%Z; Params.endTime := Some 1700000000000%Z |};
    {| Params.symbol := "ETHUSDT"; Params.interval := "1h"; Params.limit := 24;
       Params.startTime := Some 1699913600000%Z; Params.endTime := Some 1700000000000%Z |};
    {| Params.symbol := "ETHUSDT"; Params.interval := "1d"; Params.limit := 7;
       Params.startTime := Some 1699395200000%Z; Params.endTime := Some 1700000000000%Z |} ].
Proof.
  destruct (@historical_prices_requests asciiStrings 1700000000000 "ethusdt" noTraffic)
    as (_ & _ & Hreq); [lia |].
  exact Hreq.
Defined.

Lemma historical_prices_join_witness :
  let legs := @getHistoricalPrices asciiStrings 1700000000000 "ethusdt" noTraffic in
  joinedOutcome
    (respondsHistorical
       [ (2%nat, HttpOk [exampleTuple; exampleTuple]); (0%nat, HttpOk []); (1%nat, HttpOk [exampleTuple]) ]
       (subscribeHistorical legs.1 legs.2)).1
  = Some (inr {| HistoricalPrices.h1 := [];
                 HistoricalPrices.h24 := [decodeKline exampleTuple];
                 HistoricalPrices.d7 := [decodeKline exampleTuple; decodeKline exampleTuple] |}).
Proof.
  apply (@historical_prices_join asciiStrings 1700000000000 "ethusdt" noTraffic
           [] [exampleTuple] [exampleTuple; exampleTuple]).
  simpl.
  apply (Permutation_app_comm
           [(2%nat, HttpOk [exampleTuple; exampleTuple])]
           [(0%nat, HttpOk []); (1%nat, HttpOk [exampleTuple])]).
Defined.

Lemma historical_prices_fail_fast_witness :
  let legs := @getHistoricalPrices asciiStrings 1700000000000 "ethusdt" noTraffic in
  let down := {| httpStatus := 503 |} in
  joinedOutcome
    (respondsHistorical
       ([(1%nat, HttpFail down); (1%nat, HttpFail down); (1%nat, HttpFail down);
         (1%nat, HttpFail {| httpStatus := 429 |})]
        ++ [(0%nat, HttpOk [exampleTuple]); (2%nat, HttpOk [])])
       (subscribeHistorical legs.1 legs.2)).1
  = Some (inl {| httpStatus := 429 |}).
Proof.
  apply (@historical_prices_fail_fast asciiStrings 1700000000000 "ethusdt" noTraffic 1
           {| httpStatus := 503 |} {| httpStatus := 503 |} {| httpStatus := 503 |}
           {| httpStatus := 429 |}).
  simpl. set_solver.
Defined.

(** ** Tuples of any length *)

(** X15. Decoding never fails and looks at the first twelve positions
    only: the fields of the candle, in wire order, are the tuple cut or
    padded with [undefined] to twelve values. A twelve-element tuple is
    recovered from its candle. *)
Theorem candle_fields_are_the_tuple (item : list JsValue) :
  candleFields (decodeKline item) = take 12 (item ++ replicate 12 JUndefined)
  ∧ decodeKline (take 12 item) = decodeKline item
  ∧ (length item = 12%nat → candleFields (decodeKline item) = item)
  ∧ (∀ data, candleFields <$> decodeKlines data
             = (λ item, take 12 (item ++ replicate 12 JUndefined)) <$> data).
Proof.
  assert (Hfields : ∀ it, candleFields (decodeKline it)
                          = take 12 (it ++ replicate 12 JUndefined)).
  { intros it. do 12 (destruct it as [| ? it]; [reflexivity |]). reflexivity. }
  split_and!.
  - apply Hfields.
  - do 12 (destruct item as [| ? item]; [reflexivity |]). reflexivity.
  - intros Hlen. rewrite Hfields.
    rewrite take_app_le by lia. apply take_ge. lia.
  - intros data. unfold decodeKlines. rewrite <- list_fmap_compose.
    apply list_fmap_ext. intros _ it _. apply Hfields.
Qed.

Lemma candle_fields_are_the_tuple_witness :
  candleFields (decodeKline exampleTuple) = exampleTuple.
Proof.
  apply (candle_fields_are_the_tuple exampleTuple). reflexivity.
Defined.

(** * The component and the service together *)

Section TrackerFacts.

Context {N : Type} `{JsString} `{JsNumber N} `{JsObjectPrototype}.
Import JsSet JsSetFacts.

Implicit Types (app : App N) (c : Component N) (fav : Favorite.t N).

Lemma elem_of_symbolsWanted x c :
  x ∈ symbolsWanted c ↔
  x = toLowerCase (selectedPair c)
  ∨ x ∈ (λ fav, toLowerCase (Favorite.symbol fav)) <$> favorites c.
Proof.
  unfold symbolsWanted.
  rewrite <- (foldl_fmap (λ set y, add y set) _ (favorites c)
                (λ fav, toLowerCase (Favorite.symbol fav))).
  rewrite elem_of_foldl_add, elem_of_add. unfold empty.
  rewrite elem_of_nil. tauto.
Qed.

Lemma content_symbolsWanted c : content (symbolsWanted c) = wanted c.
Proof.
  apply set_eq. intros x. unfold content, wanted.
  rewrite elem_of_union, elem_of_singleton, !elem_of_list_to_set.
  apply elem_of_symbolsWanted.
Qed.

Lemma NoDup_symbolsWanted c : NoDup (symbolsWanted c).
Proof.
  unfold symbolsWanted.
  rewrite <- (foldl_fmap (λ set y, add y set) _ (favorites c)
                (λ fav, toLowerCase (Favorite.symbol fav))).
  apply NoDup_foldl_add, NoDup_add. constructor.
Qed.

Section LowerCaseOnce.

(** Lower-casing a lower-cased string changes nothing. *)
Hypothesis lower_idempotent : ∀ s, toLowerCase (toLowerCase s) = toLowerCase s.

Lemma normalized_symbolsWanted c : normalized (toArray (symbolsWanted c)) = wanted c.
Proof.
  rewrite <- content_symbolsWanted. apply set_eq. intros x.
  unfold normalized, content, toArray. rewrite !elem_of_list_to_set, list_elem_of_fmap.
  split.
  - intros (y & -> & Hy). pose proof Hy as Hy'.
    apply elem_of_symbolsWanted in Hy' as [-> | (fav & -> & _)%list_elem_of_fmap];
      by rewrite lower_idempotent.
  - intros Hx. exists x. split; [| done].
    apply elem_of_symbolsWanted in Hx as [-> | (fav & -> & _)%list_elem_of_fmap];
      by rewrite lower_idempotent.
Qed.

Lemma update_streams_wanted now app :
  content (_subscribedSymbols (service (updateWebSocketSubscriptions now app)))
  = wanted (component app).
Proof.
  unfold updateWebSocketSubscriptions. simpl.
  by rewrite content_subscribed_after, normalized_symbolsWanted.
Qed.

(** X16. After [updateWebSocketSubscriptions] the service streams
    exactly the selected pair and the favourites, lower-cased; the
    selected pair is always among them; the component itself, the candle
    traffic and the stored favourites are untouched; and running it
    again at once changes nothing. *)
Theorem selected_and_favourites_are_streamed (now now' : Z * Z) (app : App N) :
  let app' := updateWebSocketSubscriptions now app in
  content (_subscribedSymbols (service app')) = wanted (component app)
  ∧ toLowerCase (selectedPair (component app)) ∈ _subscribedSymbols (service app')
  ∧ (∀ fav, fav ∈ favorites (component app) →
       toLowerCase (Favorite.symbol fav) ∈ _subscribedSymbols (service app'))
  ∧ component app' = component app
  ∧ candles app' = candles app
  ∧ saved app' = saved app
  ∧ updateWebSocketSubscriptions now' app' = app'.
Proof.
  intros app'. pose proof (update_streams_wanted now app) as Hset. fold app' in Hset.
  assert (Hin : ∀ x, x ∈ _subscribedSymbols (service app') ↔ x ∈ wanted (component app)).
  { intros x. rewrite <- Hset. unfold content. by rewrite elem_of_list_to_set. }
  split; [exact Hset |].
  split.
  { apply Hin. unfold wanted. apply elem_of_union_l, elem_of_singleton. reflexivity. }
  split.
  { intros fav Hfav. apply Hin. unfold wanted.
    apply elem_of_union_r, elem_of_list_to_set, list_elem_of_fmap. by exists fav. }
  split; [reflexivity |]. split; [reflexivity |]. split; [reflexivity |].
  unfold app', updateWebSocketSubscriptions. simpl. f_equal.
  apply subscribe_same_is_identity.
  by rewrite content_subscribed_after.
Qed.

End LowerCaseOnce.

(** ** Favourites *)

Lemma is_favourite (x : string) (l : list (Favorite.t N)) :
  existsb (λ fav, String.eqb (Favorite.symbol fav) x) l = true
  ↔ x ∈ Favorite.symbol <$> l.
Proof.
  induction l as [| fav l IH]; simpl.
  - split; [done | by intros ?%elem_of_nil].
  - rewrite orb_true_iff, IH, elem_of_cons, String.eqb_eq. split; intros [-> | ?]; auto.
Qed.

Lemma addFavorite_known now app :
  selectedPair (component app) ∈ Favorite.symbol <$> favorites (component app) →
  addFavorite now app = app.
Proof.
  intros Hin%is_favourite. unfold addFavorite. by rewrite Hin.
Qed.

Lemma addFavorite_new now app :
  selectedPair (component app) ∉ Favorite.symbol <$> favorites (component app) →
  addFavorite now app =
  updateWebSocketSubscriptions now
    (saveFavorites
       (withComponent
          (withFavorites
             (favorites (component app) ++
              [{| Favorite.symbol := selectedPair (component app);
                  Favorite.price := priceOrZero (currentPrice (component app));
                  Favorite.change := priceChangePercent (component app) |}])
             (component app)) app)).
Proof.
  intros Hnot. unfold addFavorite.
  destruct (existsb _ (favorites (component app))) eqn:E; [| done].
  by apply is_favourite in E.
Qed.

(** X17. [addFavorite] makes the selected pair a favourite exactly once:
    if it is one already nothing happens at all, otherwise one entry for
    it is appended, with the current price or ['0'], and the list is
    written to [localStorage]; either way the pair is a favourite
    afterwards, a list without repeated symbols stays so, and a second
    [addFavorite] changes nothing. *)
Theorem add_favourite_once (now now' : Z * Z) (app : App N) :
  let c := component app in
  let app' := addFavorite now app in
  selectedPair c ∈ Favorite.symbol <$> favorites (component app')
  ∧ selectedPair (component app') = selectedPair c
  ∧ (selectedPair c ∈ Favorite.symbol <$> favorites c → app' = app)
  ∧ (selectedPair c ∉ Favorite.symbol <$> favorites c →
       favorites (component app') =
         favorites c ++
         [{| Favorite.symbol := selectedPair c;
             Favorite.price := priceOrZero (currentPrice c);
             Favorite.change := priceChangePercent c |}]
       ∧ saved app' = Some (favorites (component app')))
  ∧ (NoDup (Favorite.symbol <$> favorites c) →
       NoDup (Favorite.symbol <$> favorites (component app')))
  ∧ addFavorite now' app' = app'.
Proof.
  intros c app'. subst c app'.
  destruct (decide (selectedPair (component app)
                    ∈ Favorite.symbol <$> favorites (component app))) as [Hin | Hnot].
  - rewrite (addFavorite_known now app Hin).
    split; [done |]. split; [done |]. split; [done |]. split; [done |]. split; [done |].
    by apply addFavorite_known.
  - rewrite (addFavorite_new now app Hnot). simpl.
    split; [rewrite fmap_app; apply elem_of_app; right; simpl; left |].
    split; [done |]. split; [done |]. split; [done |]. split.
    + intros Hnodup. rewrite fmap_app. apply NoDup_app. split; [done |]. split.
      * intros x Hx [-> | []%elem_of_nil]%elem_of_cons. done.
      * apply NoDup_singleton.
    + apply addFavorite_known. simpl. rewrite fmap_app. apply elem_of_app. right. left.
Qed.

Lemma filter_other_symbols (sym : string) (l : list (Favorite.t N)) :
  sym ∉ Favorite.symbol <$> l → filter (λ fav, Favorite.symbol fav ≠ sym) l = l.
Proof.
  intros Hnot. induction l as [| fav l IH]; [done |].
  rewrite fmap_cons, not_elem_of_cons in Hnot. destruct Hnot as [Hne Hnot].
  rewrite filter_cons_True by done. by rewrite IH.
Qed.

(** X19. Adding the selected pair to the favourites and removing it
    again gives back the list of favourites there was, provided the pair
    was no favourite before. *)
Theorem add_then_remove_favourite (now now' : Z * Z) (app : App N) :
  selectedPair (component app) ∉ Favorite.symbol <$> favorites (component app) →
  favorites (component (removeFavorite now' (selectedPair (component app))
                          (addFavorite now app)))
  = favorites (component app)
  ∧ saved (removeFavorite now' (selectedPair (component app)) (addFavorite now app))
    = Some (favorites (component app))
  ∧ selectedPair (component (removeFavorite now' (selectedPair (component app))
                               (addFavorite now app)))
    = selectedPair (component app).
Proof.
  intros Hnot. rewrite (addFavorite_new now app Hnot). unfold removeFavorite. simpl.
  rewrite filter_app, (filter_other_symbols _ _ Hnot), filter_cons_False, filter_nil
    by (simpl; auto).
  by rewrite app_nil_r.
Qed.

Section StreamedAfterwards.

Hypothesis lower_idempotent : ∀ s, toLowerCase (toLowerCase s) = toLowerCase s.

(** X18. [removeFavorite] drops every favourite with the given symbol
    and keeps the others in their order, writes the result to
    [localStorage], and leaves the list as it was when the symbol is no
    favourite; afterwards the service streams the selected pair and the
    favourites that remain, so the selected pair stays streamed even
    when it was the favourite removed. *)
Theorem remove_favourite (now : Z * Z) (sym : string) (app : App N) :
  let c := component app in
  let app' := removeFavorite now sym app in
  (sym ∉ Favorite.symbol <$> favorites (component app'))
  ∧ (∀ fav, fav ∈ favorites (component app') ↔ fav ∈ favorites c ∧ Favorite.symbol fav ≠ sym)
  ∧ (favorites (component app') `sublist_of` favorites c)
  ∧ saved app' = Some (favorites (component app'))
  ∧ selectedPair (component app') = selectedPair c
  ∧ (sym ∉ Favorite.symbol <$> favorites c → favorites (component app') = favorites c)
  ∧ content (_subscribedSymbols (service app')) = wanted (component app')
  ∧ toLowerCase (selectedPair c) ∈ _subscribedSymbols (service app').
Proof.
  intros c app'. subst c app'.
  assert (Hset : content (_subscribedSymbols (service (removeFavorite now sym app)))
                 = wanted (component (removeFavorite now sym app))).
  { unfold removeFavorite. by rewrite update_streams_wanted. }
  split.
  { unfold removeFavorite. simpl. intros (fav & Hsym & Hfav)%list_elem_of_fmap.
    apply list_elem_of_filter in Hfav as [Hne _]. by apply Hne. }
  split.
  { intros fav. unfold removeFavorite. simpl. rewrite list_elem_of_filter. tauto. }
  split; [apply sublist_filter |]. split; [done |]. split; [done |].
  split; [apply filter_other_symbols |]. split; [exact Hset |].
  apply (elem_of_list_to_set (C := gset string)). fold (content (_subscribedSymbols
    (service (removeFavorite now sym app)))). rewrite Hset.
  unfold wanted. apply elem_of_union_l, elem_of_singleton. reflexivity.
Qed.

End StreamedAfterwards.

(** ** Selection *)

Lemma fetchKlines_requests app :
  requests (candles (fetchKlines app)) =
  requests (candles app) ++
    [klinesParams (selectedPair (component app))
       (apiInterval (selectedInterval (component app))) (Some 100%Z) None None].
Proof.
  unfold fetchKlines, getKlines. cbn [candles]. by rewrite subscribe_pipeline.
Qed.

Lemma selectPair_requests now pair app :
  requests (candles (selectPair now pair app)) =
  requests (candles app) ++
    [klinesParams pair (apiInterval (selectedInterval (component app))) (Some 100%Z) None None].
Proof. unfold selectPair. by rewrite fetchKlines_requests. Qed.

(** X20. [selectPair(pair)] shows the pair with the price display
    reset, keeps the favourites, and sends one candle request for it:
    symbol in upper case, the interval the view's choice stands for, 100
    candles, no time bounds. Selecting the same pair again sends no
    command to the socket but one more candle request. *)
Theorem select_pair (now now' : Z * Z) (pair : string) (app : App N) :
  let app' := selectPair now pair app in
  let request :=
    {| Params.symbol := toUpperCase pair;
       Params.interval := apiInterval (selectedInterval (component app));
       Params.limit := 100;
       Params.startTime := None;
       Params.endTime := None |} in
  selectedPair (component app') = pair
  ∧ currentPrice (component app') = None
  ∧ lastPrice (component app') = None
  ∧ priceChangePercent (component app') = zero
  ∧ favorites (component app') = favorites (component app)
  ∧ saved app' = saved app
  ∧ requests (candles app') = requests (candles app) ++ [request]
  ∧ wire (service (selectPair now' pair app')) = wire (service app')
  ∧ requests (candles (selectPair now' pair app')) = requests (candles app) ++ [request; request].
Proof.
  intros app' request. subst app' request.
  repeat (split; [reflexivity |]).
  split; [by rewrite selectPair_requests, klinesParams_fields |].
  split.
  - unfold selectPair, fetchKlines, updateWebSocketSubscriptions. simpl.
    rewrite subscribe_same_is_identity; [done |].
    by rewrite content_subscribed_after.
  - rewrite !selectPair_requests, klinesParams_fields. by rewrite <- app_assoc.
Qed.

Lemma apiInterval_own (interval v : string) :
  lookupField interval intervalMap = Some (JStr v) → v ≠ "" → apiInterval interval = v.
Proof.
  intros Hown Hv. unfold apiInterval. rewrite Hown. simpl.
  by destruct (String.eqb_spec v "").
Qed.

Lemma apiInterval_inherited (interval text : string) :
  lookupField interval intervalMap = None →
  prototypeMember interval = Some text → apiInterval interval = text.
Proof. intros Hnone Hmember. unfold apiInterval. by rewrite Hnone, Hmember. Qed.

Lemma apiInterval_unmapped (interval : string) :
  lookupField interval intervalMap = None →
  prototypeMember interval = None → apiInterval interval = interval.
Proof. intros Hnone Hmember. unfold apiInterval. by rewrite Hnone, Hmember. Qed.

(** X21. [selectInterval] changes the shown interval only and sends one
    candle request for the selected pair, nothing to the socket. The
    interval of the request is what a read of [intervalMap] under the
    shown interval gives, or the shown interval when that read gives
    nothing: ['24h'] stands for ['1d'] and ['7d'] for ['1w']; a name the
    map does not list but [Object.prototype] defines, such as
    ['toString'], stands for that member and not for itself; every other
    interval, ['1h'] among them when [Object.prototype] has no such
    member, is requested as it is. *)
Theorem select_interval (interval : string) (app : App N) :
  let app' := selectInterval interval app in
  selectedInterval (component app') = interval
  ∧ selectedPair (component app') = selectedPair (component app)
  ∧ favorites (component app') = favorites (component app)
  ∧ service app' = service app
  ∧ requests (candles app') =
    requests (candles app) ++
      [{| Params.symbol := toUpperCase (selectedPair (component app));
          Params.interval := apiInterval interval;
          Params.limit := 100;
          Params.startTime := None;
          Params.endTime := None |}]
  ∧ apiInterval "24h" = "1d"
  ∧ apiInterval "7d" = "1w"
  ∧ (prototypeMember "1h" = None → apiInterval <$> intervals = ["1h"; "1d"; "1w"])
  ∧ (∀ v, lookupField interval intervalMap = Some (JStr v) → v ≠ "" →
       apiInterval interval = v)
  ∧ (∀ text, lookupField interval intervalMap = None →
       prototypeMember interval = Some text → apiInterval interval = text)
  ∧ (lookupField interval intervalMap = None → prototypeMember interval = None →
       apiInterval interval = interval).
Proof.
  intros app'. subst app'.
  repeat (split; [reflexivity |]).
  split; [unfold selectInterval; by rewrite fetchKlines_requests, klinesParams_fields |].
  split; [reflexivity |]. split; [reflexivity |].
  split.
  { intros Hhour. unfold intervals. rewrite !fmap_cons, fmap_nil.
    by rewrite (apiInterval_unmapped "1h" eq_refl Hhour). }
  split; [apply apiInterval_own |].
  split; [apply apiInterval_inherited | apply apiInterval_unmapped].
Qed.

(** ** The directory arrives *)

(** X22. When [exchangeInfo$] emits, the component lists the symbols of
    the directory and keeps its selection valid: a selected pair that the
    directory lists stays, one that it does not list is replaced by the
    first pair of the directory, and with an empty directory the
    selection stays as it is. The pair selected in the end is shown with
    the price display reset and one candle request is sent for it. The
    pairs offered after filtering are among those listed, all of them
    when no search term is set. *)
Theorem directory_keeps_selection_valid (now : Z * Z) (published : list ExchangeSymbol)
    (app : App N) :
  let c := component app in
  let c' := component (onExchangeInfo now published app) in
  availablePairs c' = symbol <$> published
  ∧ (published ≠ [] → selectedPair c' ∈ availablePairs c')
  ∧ (selectedPair c ∈ symbol <$> published → selectedPair c' = selectedPair c)
  ∧ (published = [] → selectedPair c' = selectedPair c)
  ∧ (∀ first rest, published = first :: rest →
       selectedPair c ∉ symbol <$> published → selectedPair c' = symbol first)
  ∧ currentPrice c' = None
  ∧ favorites c' = favorites c
  ∧ requests (candles (onExchangeInfo now published app)) =
    requests (candles app) ++
      [klinesParams (selectedPair c') (apiInterval (selectedInterval c)) (Some 100%Z) None None]
  ∧ (filteredAvailablePairs c' `sublist_of` availablePairs c')
  ∧ (coinSearchTerm c = "" → filteredAvailablePairs c' = availablePairs c').
Proof.
  intros c c'. subst c c'. unfold onExchangeInfo.
  set (pairs := symbol <$> published).
  set (chosen := if (0 <? length pairs)%nat && negb (bool_decide (_ ∈ pairs)) then _ else _).
  assert (Hchosen :
    (published ≠ [] → chosen ∈ pairs)
    ∧ (selectedPair (component app) ∈ pairs → chosen = selectedPair (component app))
    ∧ (published = [] → chosen = selectedPair (component app))
    ∧ (∀ first rest, published = first :: rest →
         selectedPair (component app) ∉ pairs → chosen = symbol first)).
  { subst chosen pairs. simpl.
    destruct published as [| first rest]; simpl.
    - split; [done |]. split; [done |]. split; [done |]. by intros ? ? ?.
    - destruct (decide (selectedPair (component app) ∈ symbol first :: (symbol <$> rest)))
        as [Hin | Hnot].
      + rewrite bool_decide_eq_true_2 by done. simpl.
        split; [done |]. split; [done |]. split; [done |].
        intros ? ? _ Hno. by destruct Hno.
      + rewrite bool_decide_eq_false_2 by done. simpl.
        split; [intros _; left |]. split; [done |]. split; [done |].
        intros first' rest' Heq _. by inversion Heq. }
  destruct Hchosen as (Hvalid & Hkept & Hempty & Hfirst).
  split; [reflexivity |]. split; [exact Hvalid |]. split; [exact Hkept |].
  split; [exact Hempty |]. split; [exact Hfirst |].
  split; [reflexivity |]. split; [reflexivity |].
  split; [by rewrite selectPair_requests |].
  clearbody chosen. unfold selectPair, filterCoins. simpl. split.
  - destruct (String.eqb _ ""); simpl; [reflexivity | apply sublist_filter].
  - by intros ->.
Qed.

(** ** Trade events *)

Lemma findFavorite_Some (sym : string) (l : list (Favorite.t N)) (i : nat) :
  findFavorite sym l = Some i →
  ∃ fav, l !! i = Some fav
    ∧ toUpperCase (Favorite.symbol fav) = toUpperCase sym
    ∧ ∀ j fav', (j < i)%nat → l !! j = Some fav' →
        toUpperCase (Favorite.symbol fav') ≠ toUpperCase sym.
Proof.
  revert i. induction l as [| fav l IH]; intros i; simpl; [done |].
  destruct (String.eqb_spec (toUpperCase (Favorite.symbol fav)) (toUpperCase sym))
    as [Heq | Hne].
  - intros [= <-]. exists fav. split; [done |]. split; [done |]. intros j fav' Hj. lia.
  - destruct (findFavorite sym l) as [k |] eqn:Hk; [| done]. simpl. intros [= <-].
    destruct (IH k eq_refl) as (fav0 & Hlook & Hsym & Hfirst).
    exists fav0. split; [done |]. split; [done |].
    intros [| j] fav' Hj; simpl.
    + by intros [= <-].
    + apply Hfirst. lia.
Qed.

Lemma findFavorite_None (sym : string) (l : list (Favorite.t N)) :
  findFavorite sym l = None ↔
  ∀ fav, fav ∈ l → toUpperCase (Favorite.symbol fav) ≠ toUpperCase sym.
Proof.
  induction l as [| fav l IH]; simpl.
  - split; [by intros _ fav ?%elem_of_nil | done].
  - destruct (String.eqb_spec (toUpperCase (Favorite.symbol fav)) (toUpperCase sym))
      as [Heq | Hne].
    + split; [done |]. intros Hall. exfalso. apply (Hall fav); [left | done].
    + destruct (findFavorite sym l) as [k |] eqn:Hk; simpl.
      * split; [done |]. intros Hall.
        assert (Hnone : Some k = None); [| done].
        apply IH. intros fav' Hin. apply Hall. by right.
      * split; [| done]. intros _ fav' [-> | Hin]%elem_of_cons; [done |].
        by apply IH.
Qed.

Lemma onTrade_favorites trade c :
  favorites (onTrade trade c) =
  match findFavorite (Trade.s trade) (favorites c) with
  | Some i =>
    match favorites c !! i with
    | Some fav => <[i := repriced trade fav]> (favorites c)
    | None => favorites c
    end
  | None => favorites c
  end.
Proof.
  unfold onTrade.
  set (c1 := if String.eqb _ _ then _ else c).
  assert (Hfavs : favorites c1 = favorites c) by (subst c1; by destruct (String.eqb _ _)).
  rewrite Hfavs.
  destruct (findFavorite (Trade.s trade) (favorites c)) as [i |] eqn:Hfind; [| done].
  destruct (favorites c !! i) as [fav |] eqn:Hlook; [| done].
  simpl. rewrite Nat.add_1_r. symmetry. apply insert_take_drop.
  by eapply lookup_lt_Some.
Qed.

(** X23. A trade event changes the prices shown and nothing else. The
    favourites keep their symbols and their order. Every favourite whose
    symbol differs, in upper case, from the symbol of the trade is
    untouched; of those that agree only the first in the list changes,
    and its price becomes the price string of the trade as it is. The
    current price and volume follow the trade exactly when its symbol
    agrees, in upper case, with the selected pair. A trade for a pair
    that is neither selected nor a favourite leaves the component as it
    was. *)
Theorem trade_updates_prices_only (trade : Trade.data) (c : Component N) :
  let c' := onTrade trade c in
  Favorite.symbol <$> favorites c' = Favorite.symbol <$> favorites c
  ∧ selectedPair c' = selectedPair c
  ∧ availablePairs c' = availablePairs c
  ∧ selectedInterval c' = selectedInterval c
  ∧ (∀ i fav, favorites c !! i = Some fav →
       toUpperCase (Favorite.symbol fav) ≠ toUpperCase (Trade.s trade) →
       favorites c' !! i = Some fav)
  ∧ (∀ i fav, favorites c !! i = Some fav →
       toUpperCase (Favorite.symbol fav) = toUpperCase (Trade.s trade) →
       (∀ j fav', (j < i)%nat → favorites c !! j = Some fav' →
          toUpperCase (Favorite.symbol fav') ≠ toUpperCase (Trade.s trade)) →
       favorites c' !! i = Some (repriced trade fav)
       ∧ ∀ j, j ≠ i → favorites c' !! j = favorites c !! j)
  ∧ (toUpperCase (Trade.s trade) = toUpperCase (selectedPair c) →
       currentPrice c' = Some (Trade.p trade)
       ∧ currentVolume c' = Some (Trade.q trade)
       ∧ lastPrice c' = Some (parseFloat (Trade.p trade)))
  ∧ (toUpperCase (Trade.s trade) ≠ toUpperCase (selectedPair c) →
       currentPrice c' = currentPrice c
       ∧ currentVolume c' = currentVolume c
       ∧ lastPrice c' = lastPrice c
       ∧ priceChangePercent c' = priceChangePercent c)
  ∧ (toUpperCase (Trade.s trade) ≠ toUpperCase (selectedPair c) →
       (∀ fav, fav ∈ favorites c →
          toUpperCase (Favorite.symbol fav) ≠ toUpperCase (Trade.s trade)) →
       c' = c).
Proof.
  intros c'. subst c'.
  pose proof (onTrade_favorites trade c) as Hfavs.
  split.
  { rewrite Hfavs.
    destruct (findFavorite _ _) as [i |]; [| done].
    destruct (favorites c !! i) as [fav |] eqn:Hlook; [| done].
    rewrite list_fmap_insert. simpl. apply list_insert_id.
    by rewrite list_lookup_fmap, Hlook. }
  assert (Hshape : ∀ (A : Type) (field : Component N → A),
            (∀ l x, field (withFavorites l x) = field x) →
            field (onTrade trade c) =
            field (if String.eqb (toUpperCase (Trade.s trade)) (toUpperCase (selectedPair c))
                   then
                     {| availablePairs := availablePairs c;
                        filteredAvailablePairs := filteredAvailablePairs c;
                        coinSearchTerm := coinSearchTerm c;
                        selectedPair := selectedPair c;
                        selectedInterval := selectedInterval c;
                        currentPrice := Some (Trade.p trade);
                        currentVolume := Some (Trade.q trade);
                        priceChangePercent :=
                          match lastPrice c with
                          | Some previous => percentChange (parseFloat (Trade.p trade)) previous
                          | None => priceChangePercent c
                          end;
                        lastPrice := Some (parseFloat (Trade.p trade));
                        favorites := favorites c |}
                   else c)).
  { intros A field Hfield. unfold onTrade.
    set (c1 := if String.eqb _ _ then _ else c).
    destruct (findFavorite _ (favorites c1)) as [i |]; [| done].
    destruct (favorites c1 !! i) as [fav |]; [| done]. apply Hfield. }
  split.
  { rewrite (Hshape _ selectedPair) by done. by destruct (String.eqb _ _). }
  split.
  { rewrite (Hshape _ availablePairs) by done. by destruct (String.eqb _ _). }
  split.
  { rewrite (Hshape _ selectedInterval) by done. by destruct (String.eqb _ _). }
  split.
  { intros i fav Hlook Hne. rewrite Hfavs.
    destruct (findFavorite _ _) as [k |] eqn:Hfind; [| done].
    destruct (findFavorite_Some _ _ _ Hfind) as (fav0 & Hk & Hsym & _).
    rewrite Hk. rewrite list_lookup_insert_ne; [done |].
    intros ->. rewrite Hk in Hlook. by injection Hlook as ->. }
  split.
  { intros i fav Hlook Heq Hfirst. rewrite Hfavs.
    destruct (findFavorite _ _) as [k |] eqn:Hfind.
    - destruct (findFavorite_Some _ _ _ Hfind) as (fav0 & Hk & Hsym & Hmin).
      assert (k = i) as ->.
      { destruct (Nat.lt_trichotomy k i) as [Hlt | [-> | Hgt]]; [| done |].
        - by destruct (Hfirst k fav0 Hlt Hk).
        - by destruct (Hmin i fav Hgt Hlook). }
      rewrite Hk. rewrite Hlook in Hk. injection Hk as <-. split.
      + apply list_lookup_insert_eq. by eapply lookup_lt_Some.
      + intros j Hj. by rewrite list_lookup_insert_ne.
    - exfalso. apply (proj1 (findFavorite_None _ _) Hfind fav); [| done].
      by eapply list_elem_of_lookup_2. }
  split.
  { intros Heq%String.eqb_eq.
    rewrite (Hshape _ currentPrice), (Hshape _ currentVolume), (Hshape _ lastPrice) by done.
    by rewrite Heq. }
  split.
  { intros Hne%String.eqb_neq.
    rewrite (Hshape _ currentPrice), (Hshape _ currentVolume), (Hshape _ lastPrice),
      (Hshape _ priceChangePercent) by done.
    by rewrite Hne. }
  intros Hne%String.eqb_neq Hnone.
  unfold onTrade. rewrite Hne.
  by rewrite (proj2 (findFavorite_None _ _) Hnone).
Qed.

End TrackerFacts.

(** ** The component on ticker symbols and doubles *)

Lemma asciiLower_idempotent (c : ascii) : asciiLower (asciiLower c) = asciiLower c.
Proof. destruct c as [[] [] [] [] [] [] [] []]; reflexivity. Qed.

Lemma ascii_lower_idempotent (s : string) :
  @toLowerCase asciiStrings (@toLowerCase asciiStrings s) = @toLowerCase asciiStrings s.
Proof.
  simpl. induction s as [| c s IH]; simpl; [done |].
  by rewrite asciiLower_idempotent, IH.
Qed.

Lemma selected_and_favourites_are_streamed_witness :
  "btcusdt" ∈ _subscribedSymbols
                (service (@updateWebSocketSubscriptions spec_float asciiStrings (7, 8)%Z
                            (withComponent
                               (withFavorites [] (component trackingTwo)) trackingTwo))).
Proof.
  destruct (@selected_and_favourites_are_streamed spec_float asciiStrings ascii_lower_idempotent
              (7, 8)%Z (7, 8)%Z
              (withComponent (withFavorites [] (component trackingTwo)) trackingTwo))
    as (_ & Hselected & _).
  exact Hselected.
Defined.

Lemma add_favourite_once_witness :
  @addFavorite spec_float asciiStrings (7, 8)%Z trackingTwo = trackingTwo.
Proof.
  destruct (@add_favourite_once spec_float asciiStrings (7, 8)%Z (7, 8)%Z trackingTwo)
    as (_ & _ & Hknown & _).
  apply Hknown. simpl. left.
Defined.

Lemma add_then_remove_favourite_witness :
  let watching := @selectPair spec_float asciiStrings doubles objectPrototype (3, 4)%Z "BNBUSDT" trackingTwo in
  favorites (component (@removeFavorite spec_float asciiStrings (7, 8)%Z "BNBUSDT"
                          (@addFavorite spec_float asciiStrings (5, 6)%Z watching)))
  = favorites (component trackingTwo).
Proof.
  destruct (@add_then_remove_favourite spec_float asciiStrings (5, 6)%Z (7, 8)%Z
              (@selectPair spec_float asciiStrings doubles objectPrototype (3, 4)%Z "BNBUSDT" trackingTwo))
    as (Hback & _).
  - simpl. apply (bool_decide_unpack _). vm_compute. exact I.
  - exact Hback.
Defined.

Lemma remove_favourite_witness :
  favorites (component (@removeFavorite spec_float asciiStrings (7, 8)%Z "SOLUSDT" trackingTwo))
  = favorites (component trackingTwo).
Proof.
  destruct (@remove_favourite spec_float asciiStrings ascii_lower_idempotent (7, 8)%Z "SOLUSDT"
              trackingTwo) as (_ & _ & _ & _ & _ & Hsame & _).
  apply Hsame. simpl. apply (bool_decide_unpack _). vm_compute. exact I.
Defined.

Lemma select_interval_witness :
  @apiInterval objectPrototype "1m" = "1m"
  ∧ @apiInterval objectPrototype <$> intervals = ["1h"; "1d"; "1w"]
  ∧ @apiInterval objectPrototype "toString" = "function toString() { [native code] }".
Proof.
  split; [| split].
  - destruct (@select_interval spec_float asciiStrings objectPrototype "1m" trackingTwo)
      as (_ & _ & _ & _ & _ & _ & _ & _ & _ & _ & Hsame).
    apply Hsame; reflexivity.
  - destruct (@select_interval spec_float asciiStrings objectPrototype "1m" trackingTwo)
      as (_ & _ & _ & _ & _ & _ & _ & Hchoices & _).
    apply Hchoices. reflexivity.
  - destruct (@select_interval spec_float asciiStrings objectPrototype "toString" trackingTwo)
      as (_ & _ & _ & _ & _ & _ & _ & _ & _ & Hmember & _).
    apply Hmember; reflexivity.
Defined.

Lemma directory_keeps_selection_valid_witness :
  selectedPair (component (@onExchangeInfo spec_float asciiStrings doubles objectPrototype (7, 8)%Z
                             [directoryEntry "ETHUSDT" "TRADING"; directoryEntry "BNBUSDT" "TRADING"]
                             trackingTwo))
  = "ETHUSDT".
Proof.
  destruct (@directory_keeps_selection_valid spec_float asciiStrings doubles objectPrototype (7, 8)%Z
              [directoryEntry "ETHUSDT" "TRADING"; directoryEntry "BNBUSDT" "TRADING"]
              trackingTwo) as (_ & _ & _ & _ & Hfirst & _).
  apply (Hfirst (directoryEntry "ETHUSDT" "TRADING") [directoryEntry "BNBUSDT" "TRADING"]).
  - reflexivity.
  - simpl. apply (bool_decide_unpack _). vm_compute. exact I.
Defined.

Lemma trade_updates_prices_only_witness :
  favorites (@onTrade spec_float asciiStrings doubles ethTrade (component trackingTwo)) !! 1%nat
  = Some {| Favorite.symbol := "ETHUSDT"; Favorite.price := "2100";
            Favorite.change := numberLiteral 5 |}
  ∧ currentPrice (@onTrade spec_float asciiStrings doubles ethTrade (component trackingTwo))
    = Some "50000".
Proof.
  destruct (@trade_updates_prices_only spec_float asciiStrings doubles ethTrade (component trackingTwo))
    as (_ & _ & _ & _ & _ & Hfirst & _ & Hother & _).
  split.
  - apply (Hfirst 1%nat {| Favorite.symbol := "ETHUSDT"; Favorite.price := "2000";
                           Favorite.change := numberLiteral 0 |}).
    + reflexivity.
    + reflexivity.
    + intros [| j] fav' Hj; [| lia]. simpl. intros [= <-]. vm_compute. discriminate.
  - apply Hother. vm_compute. discriminate.
Defined.

Example trade_for_the_shown_pair :
  let c' := @onTrade spec_float asciiStrings doubles
              {| Trade.e := "trade"; Trade.E := 1; Trade.s := "btcusdt"; Trade.t := 1;
                 Trade.p := "55000"; Trade.q := "2"; Trade.b := 1; Trade.a := 2;
                 Trade.T := 1; Trade.m := false; Trade.M := true |}
              (component trackingTwo) in
  currentPrice c' = Some "55000"
  ∧ priceChangePercent c' = numberLiteral 10
  ∧ Favorite.change <$> favorites c' = [numberLiteral 10; numberLiteral 0]
  ∧ Favorite.price <$> favorites c' = ["55000"; "2000"].
Proof. vm_compute. by split_and!. Qed.
